(** * joi-route-to-swagger: a shallow embedding of [src/index.js]

    The module turns route definitions annotated with Joi validators into an
    OpenAPI 3 document.  The embedding below follows the JavaScript source
    function by function.

    - JSON data (converted schemas, parameter objects, response objects) is
      the dynamically typed [value]; a JavaScript object is the association
      list of its own enumerable properties, in enumeration order.
    - A JavaScript exception is the [Throw] branch of [result].
    - In-place mutation is explicit state passing: a function that mutates
      its argument returns the new version of it.  Where the program writes
      into objects that its input may hold at several places (the route
      definitions handed to [convert]), the objects live in a heap and the
      input holds references to them.
    - The Joi validators and the [joi-to-json] converter are collaborators
      from other packages; they are parameters of the development. *)

From Stdlib Require Import ZArith NArith List String Ascii Bool Lia DecimalString.
Import ListNotations.
Open Scope string_scope.
Open Scope Z_scope.

Set Implicit Arguments.
Set Warnings "-register-all".

(* ================================================================== *)
(** ** JavaScript values *)

(** Numbers are restricted to the integers, which is what the program
    handles itself (status codes, array lengths).  A [VObj] lists the own
    properties of an object; the members every object inherits
    ([toString], [constructor], ..., see [inherited_member]) are not part
    of it.  Strings are sequences of one-byte characters. *)
Inductive value : Type :=
| VUndefined
| VNull
| VBool (b : bool)
| VNum (n : Z)
| VStr (s : string)
| VArr (elems : list value)
| VObj (fields : list (string * value)).

Inductive exn : Type := TypeError.

Inductive result (A : Type) : Type :=
| Ok (a : A)
| Throw (e : exn).

Arguments Ok {A} a.
Arguments Throw {A} e.

Definition bind {A B : Type} (m : result A) (k : A -> result B) : result B :=
  match m with
  | Ok a => k a
  | Throw e => Throw e
  end.

Notation "x <- m ;; k" := (bind m (fun x => k))
  (at level 61, m at next level, right associativity).

(** Sequential iteration of a throwing callback over a list, collecting the
    results ([Array.prototype.map] / a [forEach] that pushes). *)
Fixpoint map_m {A B : Type} (f : A -> result B) (l : list A) : result (list B) :=
  match l with
  | [] => Ok []
  | x :: tl =>
      y <- f x ;;
      ys <- map_m f tl ;;
      Ok (y :: ys)
  end.

(** [_.some] stops at the first element the predicate accepts; elements
    after it are not visited (and so cannot throw). *)
Fixpoint some_m {A : Type} (p : A -> result bool) (l : list A) : result bool :=
  match l with
  | [] => Ok false
  | x :: tl =>
      b <- p x ;;
      if b then Ok true else some_m p tl
  end.

(* ------------------------------------------------------------------ *)
(** *** Association lists: the own properties of an object *)

Definition assoc (A : Type) : Type := list (string * A).

Fixpoint assoc_get {A : Type} (fs : assoc A) (k : string) : option A :=
  match fs with
  | [] => None
  | (k', v) :: tl => if (k' =? k)%string then Some v else assoc_get tl k
  end.

Definition assoc_has {A : Type} (fs : assoc A) (k : string) : bool :=
  match assoc_get fs k with Some _ => true | None => false end.

Fixpoint assoc_replace {A : Type} (fs : assoc A) (k : string) (v : A) : assoc A :=
  match fs with
  | [] => []
  | (k', v') :: tl =>
      if (k' =? k)%string then (k', v) :: tl else (k', v') :: assoc_replace tl k v
  end.

Fixpoint assoc_remove {A : Type} (fs : assoc A) (k : string) : assoc A :=
  match fs with
  | [] => []
  | (k', v') :: tl =>
      if (k' =? k)%string then assoc_remove tl k else (k', v') :: assoc_remove tl k
  end.

(** A canonical array index: the decimal numeral, without leading zeros, of
    an integer below [2^32 - 1].  JavaScript enumerates such keys first, in
    ascending order, and the other string keys after them in insertion
    order. *)
Definition array_index (k : string) : option N :=
  match NilZero.uint_of_string k with
  | Some u =>
      let n := N.of_uint u in
      if ((NilZero.string_of_uint (N.to_uint n) =? k)%string && (n <? 4294967295)%N)%bool
      then Some n else None
  | None => None
  end.

Fixpoint assoc_insert_index {A : Type} (fs : assoc A) (n : N) (k : string) (v : A)
  : assoc A :=
  match fs with
  | [] => [(k, v)]
  | (k', v') :: tl =>
      match array_index k' with
      | Some n' =>
          if (n' <? n)%N then (k', v') :: assoc_insert_index tl n k v
          else (k, v) :: fs
      | None => (k, v) :: fs
      end
  end.

(** The names every object inherits from [Object.prototype].  A read
    [obj[k]] with such a [k] that is not an own property of [obj] finds
    the inherited member, not [undefined]; the association lists hold own
    properties only, so the statements that depend on a key being absent
    exclude these names. *)
Definition inherited_member (k : string) : bool :=
  existsb (String.eqb k)
    ["constructor"; "toString"; "toLocaleString"; "valueOf"; "hasOwnProperty";
     "isPrototypeOf"; "propertyIsEnumerable"; "__proto__"; "__defineGetter__";
     "__defineSetter__"; "__lookupGetter__"; "__lookupSetter__"].

(** [obj[k] = v] on an object, for a key other than ["__proto__"]: the
    assignment creates or replaces the own property [k].  (With the key
    ["__proto__"] JavaScript changes the prototype of the object and stores
    no property; the statements about stored entries exclude that key.) *)
Definition assoc_set {A : Type} (fs : assoc A) (k : string) (v : A) : assoc A :=
  if assoc_has fs k then assoc_replace fs k v
  else match array_index k with
       | Some n => assoc_insert_index fs n k v
       | None => (fs ++ [(k, v)])%list
       end.

(* ------------------------------------------------------------------ *)
(** *** Primitive operations *)

(** [ToBoolean]. *)
Definition truthy (v : value) : bool :=
  match v with
  | VUndefined | VNull => false
  | VBool b => b
  | VNum n => negb (n =? 0)
  | VStr s => negb (s =? "")%string
  | VArr _ | VObj _ => true
  end.

Definition string_of_Z (n : Z) : string := NilZero.string_of_int (Z.to_int n).

(** [ToString], as used by template literals, [+=] on strings and computed
    property keys.  An integer is printed as its decimal numeral, which is
    what JavaScript prints below [10^21]. *)
Fixpoint js_to_string (v : value) : string :=
  match v with
  | VUndefined => "undefined"
  | VNull => "null"
  | VBool true => "true"
  | VBool false => "false"
  | VNum n => string_of_Z n
  | VStr s => s
  | VArr l =>
      String.concat ","
        (map (fun e => match e with
                       | VUndefined | VNull => ""
                       | _ => js_to_string e
                       end) l)
  | VObj _ => "[object Object]"
  end.

(** [v === "lit"] for a string literal. *)
Definition is_str (v : value) (lit : string) : bool :=
  match v with
  | VStr s => (s =? lit)%string
  | _ => false
  end.

Fixpoint string_chars (s : string) : list value :=
  match s with
  | EmptyString => []
  | String c tl => VStr (String c EmptyString) :: string_chars tl
  end.

(** Property read [v[k]] / [v.k].  Reading a property of [undefined] or
    [null] throws; a missing property reads as [undefined].  The read is
    that of own properties: for a key that is an [inherited_member] and not
    an own property, JavaScript returns the inherited member instead. *)
Definition get_prop (v : value) (k : string) : result value :=
  match v with
  | VUndefined | VNull => Throw TypeError
  | VObj fs =>
      Ok (match assoc_get fs k with Some x => x | None => VUndefined end)
  | VArr l =>
      if (k =? "length")%string then Ok (VNum (Z.of_nat (List.length l)))
      else match array_index k with
           | Some i => Ok (nth (N.to_nat i) l VUndefined)
           | None => Ok VUndefined
           end
  | VStr s =>
      if (k =? "length")%string then Ok (VNum (Z.of_nat (String.length s)))
      else match array_index k with
           | Some i => Ok (nth (N.to_nat i) (string_chars s) VUndefined)
           | None => Ok VUndefined
           end
  | VBool _ | VNum _ => Ok VUndefined
  end.

(** [delete v.k]. *)
Definition delete_prop (v : value) (k : string) : result value :=
  match v with
  | VUndefined | VNull => Throw TypeError
  | VObj fs => Ok (VObj (assoc_remove fs k))
  | _ => Ok v
  end.

(** [s.replace(pat, rep)] with a string pattern: the first occurrence only. *)
Fixpoint drop_chars (n : nat) (s : string) : string :=
  match n, s with
  | O, _ => s
  | S _, EmptyString => EmptyString
  | S n', String _ tl => drop_chars n' tl
  end.

Fixpoint replace_first (pat rep s : string) : string :=
  if String.prefix pat s then rep ++ drop_chars (String.length pat) s
  else match s with
       | EmptyString => EmptyString
       | String c tl => String c (replace_first pat rep tl)
       end.

(** [v.replace(pat, rep)]: only strings carry a [replace] method. *)
Definition js_replace (v : value) (pat rep : string) : result string :=
  match v with
  | VStr s => Ok (replace_first pat rep s)
  | _ => Throw TypeError
  end.

(* ------------------------------------------------------------------ *)
(** *** lodash collections *)

Definition MAX_SAFE_INTEGER : Z := 9007199254740991.

(** lodash's [isArrayLike] on a plain object: an own [length] that is a
    non-negative safe integer. *)
Definition array_like_length (fs : assoc value) : option nat :=
  match assoc_get fs "length" with
  | Some (VNum n) =>
      if ((0 <=? n) && (n <=? MAX_SAFE_INTEGER))%bool then Some (Z.to_nat n) else None
  | _ => None
  end.

Definition index_entry (fs : assoc value) (i : nat) : value * value :=
  let k := string_of_Z (Z.of_nat i) in
  (VNum (Z.of_nat i),
   match assoc_get fs k with Some x => x | None => VUndefined end).

Fixpoint indexed_from (i : nat) (l : list value) : list (value * value) :=
  match l with
  | [] => []
  | x :: tl => (VNum (Z.of_nat i), x) :: indexed_from (S i) tl
  end.

(** The (key, value) pairs that [_.forEach], [_.some] and [_.find] visit, in
    order: the elements of an array or array-like, the own properties of
    any other object, nothing for [undefined], [null], numbers, booleans. *)
Definition collection_entries (c : value) : list (value * value) :=
  match c with
  | VArr l => indexed_from 0 l
  | VStr s => indexed_from 0 (string_chars s)
  | VObj fs =>
      match array_like_length fs with
      | Some n => map (index_entry fs) (seq 0 n)
      | None => map (fun kv => (VStr (fst kv), snd kv)) fs
      end
  | _ => []
  end.

Definition collection_values (c : value) : list value :=
  map snd (collection_entries c).

(* ================================================================== *)
(** ** BinaryDetector: [containsBinaryField] (index.js 60-74) *)

Definition SCHEMA_REF_PREFIX : string := "#/components/schemas/".

(** The predicate handed to [_.some]. *)
Definition isBinaryFieldDefn (fieldDefn : value) : result bool :=
  ty <- get_prop fieldDefn "type" ;;
  if is_str ty "array" then
    items <- get_prop fieldDefn "items" ;;
    fmt <- get_prop items "format" ;;
    Ok (is_str fmt "binary")
  else
    fmt <- get_prop fieldDefn "format" ;;
    Ok (is_str fmt "binary").

(** [_.some(schema.properties, ...)]: the scan of the top-level properties. *)
Definition anyTopLevelBinary (schema : value) : result bool :=
  props <- get_prop schema "properties" ;;
  some_m isBinaryFieldDefn (collection_values props).

(** The function is recursive without a visible bound, so the embedding
    carries fuel: [None] means the fuel ran out before the call returned.
    The recursive call of the source passes one argument only, hence the
    callee's [sharedSchemas] is [undefined]. *)
Fixpoint containsBinaryField_fuel (fuel : nat) (schema sharedSchemas : value)
  : option (result bool) :=
  match fuel with
  | O => None
  | S fuel' =>
      match anyTopLevelBinary schema with
      | Throw e => Some (Throw e)
      | Ok true => Some (Ok true)
      | Ok false =>
          match get_prop schema "$ref" with
          | Throw e => Some (Throw e)
          | Ok ref =>
              if truthy ref then
                match js_replace ref SCHEMA_REF_PREFIX "" with
                | Throw e => Some (Throw e)
                | Ok sharedSchemaName =>
                    match get_prop sharedSchemas sharedSchemaName with
                    | Throw e => Some (Throw e)
                    | Ok target => containsBinaryField_fuel fuel' target VUndefined
                    end
                end
              else Some (Ok false)
          end
      end
  end.

(** Two activations are always enough (lemma [containsBinaryField_fuel_enough]
    below), which gives the detector as a total function. *)
Definition containsBinaryField (schema sharedSchemas : value) : result bool :=
  match containsBinaryField_fuel 2 schema sharedSchemas with
  | Some r => r
  | None => Throw TypeError
  end.

(* ================================================================== *)
(** ** ParameterProjector (index.js 4-31) *)

Definition obj_field (fs : assoc value) (k : string) : value :=
  match assoc_get fs k with Some x => x | None => VUndefined end.

(** The own enumerable properties of a value seen as an object
    ([Object(v)]): array elements and string characters under their
    index. *)
Fixpoint index_keyed (i : nat) (l : list value) : assoc value :=
  match l with
  | [] => []
  | x :: tl => (string_of_Z (Z.of_nat i), x) :: index_keyed (S i) tl
  end.

Definition own_entries (v : value) : assoc value :=
  match v with
  | VObj fs => fs
  | VArr l => index_keyed 0 l
  | VStr s => index_keyed 0 (string_chars s)
  | _ => []
  end.

(** [_.pick(object, paths)]: a new object with the listed keys that the
    source has, in the order of [paths]. *)
Fixpoint lodash_pick_fields (fs : assoc value) (paths : list string) : assoc value :=
  match paths with
  | [] => []
  | p :: tl =>
      match assoc_get fs p with
      | Some x => (p, x) :: lodash_pick_fields fs tl
      | None => lodash_pick_fields fs tl
      end
  end.

Definition lodash_pick (object : value) (paths : list string) : assoc value :=
  match object with
  | VObj fs => lodash_pick_fields fs paths
  | _ => []
  end.

(** [_.omit(object, paths)]: a copy of the properties without the listed
    keys. *)
Definition lodash_omit (object : value) (paths : list string) : assoc value :=
  fold_left (fun acc p => assoc_remove acc p) paths (own_entries object).

(** [_.isEmpty]. *)
Definition lodash_isEmpty (v : value) : bool :=
  match v with
  | VArr [] => true
  | VArr (_ :: _) => false
  | VStr s => (s =? "")%string
  | VObj [] => true
  | VObj (_ :: _) => false
  | _ => true
  end.

(** SameValueZero against a primitive (the only use: looking a field name
    up in [required]). *)
Definition same_value_zero (a b : value) : bool :=
  match a, b with
  | VUndefined, VUndefined => true
  | VNull, VNull => true
  | VBool x, VBool y => Bool.eqb x y
  | VNum x, VNum y => (x =? y)
  | VStr x, VStr y => (x =? y)%string
  | _, _ => false
  end.

Fixpoint str_contains (pat s : string) : bool :=
  if String.prefix pat s then true
  else match s with
       | EmptyString => false
       | String _ tl => str_contains pat tl
       end.

(** [v.includes(x)]: arrays and strings have the method, nothing else. *)
Definition js_includes (v x : value) : result bool :=
  match v with
  | VArr l => Ok (existsb (same_value_zero x) l)
  | VStr s => Ok (str_contains (js_to_string x) s)
  | _ => Throw TypeError
  end.

(** index.js 4-11.  The only caller passes the parameter object under
    construction, so the argument is an object. *)
Definition _messageDescriptionWithExample (schema : assoc value) : assoc value :=
  let schema :=
    if negb (truthy (obj_field schema "description"))
    then assoc_set schema "description" (VStr "")
    else schema in
  if truthy (obj_field schema "example") then
    assoc_set schema "description"
      (VStr (js_to_string (obj_field schema "description")
             ++ " (Example: " ++ js_to_string (obj_field schema "example") ++ ")"))
  else schema.

(** index.js 13-31. *)
Definition _convertJsonSchemaToParamObj (jsonSchema fieldName : value)
  : result (assoc value) :=
  properties <- get_prop jsonSchema "properties" ;;
  schema <- get_prop properties (js_to_string fieldName) ;;
  let paramObj := lodash_pick schema ["description"; "examples"] in
  let paramObj := assoc_set paramObj "name" fieldName in
  required <- get_prop jsonSchema "required" ;;
  isRequired <- (if truthy required then js_includes required fieldName else Ok false) ;;
  let paramObj :=
    if isRequired then assoc_set paramObj "required" (VBool true) else paramObj in
  paramObj <-
    (if negb (lodash_isEmpty (obj_field paramObj "examples")) then
       first <- get_prop (obj_field paramObj "examples") "0" ;;
       Ok (assoc_remove (assoc_set paramObj "example" first) "examples")
     else Ok paramObj) ;;
  let paramObj :=
    assoc_set paramObj "schema" (VObj (lodash_omit schema ["description"; "example"])) in
  example <- get_prop schema "example" ;;
  let paramObj := assoc_set paramObj "example" example in
  Ok (_messageDescriptionWithExample paramObj).

(* ================================================================== *)
(** ** PathTemplater (index.js 148-160) *)

(** [s.split("/")]: always at least one segment. *)
Fixpoint split_on (sep : ascii) (s : string) : list string :=
  match s with
  | EmptyString => [EmptyString]
  | String c tl =>
      if Ascii.eqb c sep then EmptyString :: split_on sep tl
      else match split_on sep tl with
           | seg :: segs => String c seg :: segs
           | [] => [String c EmptyString]
           end
  end.

(** [component.indexOf(":") === 0]. *)
Definition indexOf_is_0 (pat component : string) : bool :=
  match String.index 0 pat component with
  | Some O => true
  | _ => false
  end.

(** [component.substring(1)]. *)
Definition substring_from_1 (component : string) : string := drop_chars 1 component.

(** One call of the [map] callback: it may push onto [pathParams]. *)
Definition templateComponent (pathParams : list string) (component : string)
  : list string * string :=
  if indexOf_is_0 ":" component then
    ((pathParams ++ [substring_from_1 component])%list,
     "{" ++ substring_from_1 component ++ "}")
  else (pathParams, component).

(** [components.map(callback)], threading [pathParams] left to right. *)
Fixpoint mapComponents (pathParams : list string) (components : list string)
  : list string * list string :=
  match components with
  | [] => (pathParams, [])
  | c :: tl =>
      let '(pathParams1, c') := templateComponent pathParams c in
      let '(pathParams2, tl') := mapComponents pathParams1 tl in
      (pathParams2, c' :: tl')
  end.

(** Returns [(pathString, pathParams)]. *)
Definition pathTemplate (basePath path : string) : string * list string :=
  let '(pathParams, pathComponents) :=
    mapComponents [] (split_on "/"%char (basePath ++ path)) in
  (String.concat "/" pathComponents, pathParams).

(* ================================================================== *)
(** ** Route objects and the document *)

(** The OpenAPI description of one method on one path ([swaggerReq]).
    [r_deprecated] and [r_requestBody] are [None] while the property is
    absent; [r_extra] holds whatever else the route skeleton brought. *)
Record RouteObject : Type := mkRouteObject {
  r_tags : list value;
  r_summary : value;
  r_description : value;
  r_security : value;
  r_deprecated : option value;
  r_parameters : list value;
  r_requestBody : option value;
  r_responses : assoc value;
  r_extra : assoc value
}.

Definition set_parameters (r : RouteObject) (ps : list value) : RouteObject :=
  mkRouteObject (r_tags r) (r_summary r) (r_description r) (r_security r)
    (r_deprecated r) ps (r_requestBody r) (r_responses r) (r_extra r).

Definition set_requestBody (r : RouteObject) (b : value) : RouteObject :=
  mkRouteObject (r_tags r) (r_summary r) (r_description r) (r_security r)
    (r_deprecated r) (r_parameters r) (Some b) (r_responses r) (r_extra r).

Definition set_responses (r : RouteObject) (rs : assoc value) : RouteObject :=
  mkRouteObject (r_tags r) (r_summary r) (r_description r) (r_security r)
    (r_deprecated r) (r_parameters r) (r_requestBody r) rs (r_extra r).

(** [docEntity]: [doc_components] is the [components] object, whose
    [schemas] property is the shared-schema store. *)
Record DocEntity : Type := mkDocEntity {
  doc_tags : list value;
  doc_paths : assoc (assoc RouteObject);
  doc_components : assoc value;
  doc_extra : assoc value
}.

(** Caller-supplied skeletons: every top-level key is optional and, when
    present, replaces the built-in one ([_.assign], a shallow merge). *)
Record RouteSkeleton : Type := mkRouteSkeleton {
  rs_tags : option (list value);
  rs_summary : option value;
  rs_description : option value;
  rs_security : option value;
  rs_deprecated : option value;
  rs_parameters : option (list value);
  rs_requestBody : option value;
  rs_responses : option (assoc value);
  rs_extra : assoc value
}.

Record DocSkeleton : Type := mkDocSkeleton {
  ds_tags : option (list value);
  ds_paths : option (assoc (assoc RouteObject));
  ds_components : option (assoc value);
  ds_extra : assoc value
}.

Definition or_default {A : Type} (o : option A) (d : A) : A :=
  match o with Some x => x | None => d end.

(** [_.assign({}, a, b)] on the untyped remainder. *)
Definition assign_fields (a b : assoc value) : assoc value :=
  fold_left (fun acc kv => assoc_set acc (fst kv) (snd kv)) b a.

Definition DOC_ROOT_TEMPLATE : DocEntity :=
  {| doc_tags := [];
     doc_paths := [];
     doc_components :=
       [("schemas",
         VObj [("Error",
                VObj [("type", VStr "object");
                      ("required", VArr [VStr "code"; VStr "err"]);
                      ("properties",
                       VObj [("code", VObj [("type", VStr "string")]);
                             ("err", VObj [("type", VStr "string")])])])])];
     doc_extra :=
       [("openapi", VStr "3.0.1");
        ("info", VObj [("description", VStr "API Docs");
                       ("version", VStr "1.0.0");
                       ("title", VStr "API Docs")]);
        ("servers", VArr [VObj [("url", VStr "http://localhost/")]])] |}.

Definition ROUTE_DEF_TEMPLATE : RouteObject :=
  {| r_tags := [];
     r_summary := VStr "";
     r_description := VStr "";
     r_security := VUndefined;
     r_deprecated := None;
     r_parameters := [];
     r_requestBody := None;
     r_responses :=
       [("500",
         VObj [("description", VStr "When Server takes a nap.");
               ("content",
                VObj [("application/json",
                       VObj [("schema",
                              VObj [("$ref", VStr "#/components/schemas/Error")])])])])];
     r_extra := [] |}.

Definition assignDoc (template : DocEntity) (docSkeleton : DocSkeleton) : DocEntity :=
  {| doc_tags := or_default (ds_tags docSkeleton) (doc_tags template);
     doc_paths := or_default (ds_paths docSkeleton) (doc_paths template);
     doc_components := or_default (ds_components docSkeleton) (doc_components template);
     doc_extra := assign_fields (doc_extra template) (ds_extra docSkeleton) |}.

Definition assignRoute (template : RouteObject) (routeSkeleton : RouteSkeleton)
  : RouteObject :=
  {| r_tags := or_default (rs_tags routeSkeleton) (r_tags template);
     r_summary := or_default (rs_summary routeSkeleton) (r_summary template);
     r_description := or_default (rs_description routeSkeleton) (r_description template);
     r_security := or_default (rs_security routeSkeleton) (r_security template);
     r_deprecated :=
       match rs_deprecated routeSkeleton with
       | Some d => Some d
       | None => r_deprecated template
       end;
     r_parameters := or_default (rs_parameters routeSkeleton) (r_parameters template);
     r_requestBody :=
       match rs_requestBody routeSkeleton with
       | Some b => Some b
       | None => r_requestBody template
       end;
     r_responses := or_default (rs_responses routeSkeleton) (r_responses template);
     r_extra := assign_fields (r_extra template) (rs_extra routeSkeleton) |}.

(* ================================================================== *)
(** ** The conversion, over an abstract validator library *)

Section Conversion.

(** A Joi validator, with the two capabilities [convert] uses on it:
    [$_terms.keys] (each key with the [_flags] of its schema) and
    [extract]. *)
Variable Joi : Type.
Variable terms_keys : Joi -> list (string * value).
Variable extract : Joi -> string -> Joi.

(** [joi2json(validator, "open-api", sharedSchemas)]: the converted schema
    and the shared-schema store as the call leaves it (the converter adds
    the shared definitions it meets to the store it is handed). *)
Variable joi2json : Joi -> value -> value * value.

(** Only an object can be mutated in place; with any other [sharedSchemas]
    the caller's store is as before. *)
Definition joi2json_call (validator : Joi) (sharedSchemas : value) : value * value :=
  let '(schema, after) := joi2json validator sharedSchemas in
  (schema, match sharedSchemas with VObj _ => after | _ => sharedSchemas end).

Record ResponseExample : Type := mkResponseExample {
  ex_code : value;
  ex_schema : option Joi;
  ex_mediaType : value;
  ex_description : value
}.

(** An entry of the [parameters] side channel that [convert] fills on the
    route definitions. *)
Record SideParameter : Type := mkSideParameter {
  sp_in : string;
  sp_name : string;
  sp_schema : Joi;
  sp_required : bool
}.

Record RouteDefinition : Type := mkRouteDefinition {
  rd_method : string;
  rd_path : string;
  rd_summary : value;
  rd_description : value;
  rd_security : value;
  rd_deprecated : value;
  rd_validators : option (assoc Joi);
  rd_responseExamples : list ResponseExample;
  rd_parameters : option (list SideParameter)
}.

Record RouteModule : Type := mkRouteModule {
  rm_basePath : string;
  rm_name : option string;
  rm_description : option string;
  rm_routes : list RouteDefinition
}.

(** [validators ? validators[position] : null]. *)
Definition validator_at (validators : option (assoc Joi)) (position : string)
  : option Joi :=
  match validators with
  | Some vs => assoc_get vs position
  | None => None
  end.

(** index.js 49-55: the [in] of the parameters found under a position. *)
Definition parameterLocation (position : string) : string :=
  if (position =? "queryStringParameters")%string then "query"
  else if (position =? "pathParameters")%string then "path"
  else position.

(** index.js 46-57: the callback of the [forEach], returning the object it
    pushes. *)
Definition projectField (joiJsonSchema : value) (position : string)
    (entry : value * value) : result value :=
  paramObj <- _convertJsonSchemaToParamObj joiJsonSchema (fst entry) ;;
  Ok (VObj (assoc_set paramObj "in" (VStr (parameterLocation position)))).

(** index.js 33-58.  Returns the route and the store after the call. *)
Definition addRouteParameters (sharedSchemas : value) (route : RouteObject)
    (validators : option (assoc Joi)) (position : string)
  : result (RouteObject * value) :=
  match validator_at validators position with
  | None => Ok (route, sharedSchemas)
  | Some validator =>
      let '(joiJsonSchema, sharedSchemas') := joi2json_call validator sharedSchemas in
      joiJsonSchema <- delete_prop joiJsonSchema "schemas" ;;
      properties <- get_prop joiJsonSchema "properties" ;;
      pushed <- map_m (projectField joiJsonSchema position)
                      (collection_entries properties) ;;
      Ok (set_parameters route (r_parameters route ++ pushed)%list, sharedSchemas')
  end.

(** index.js 76-95. *)
Definition addRequestBodyParams (sharedSchemas : value) (swaggerReq : RouteObject)
    (validators : option (assoc Joi))
  : result (RouteObject * value) :=
  match validator_at validators "body" with
  | None => Ok (swaggerReq, sharedSchemas)
  | Some body =>
      let '(schema, sharedSchemas') := joi2json_call body sharedSchemas in
      schema <- delete_prop schema "schemas" ;;
      binary <- containsBinaryField schema sharedSchemas' ;;
      let contentType := if binary then "multipart/form-data" else "application/json" in
      Ok (set_requestBody swaggerReq
            (VObj [("content", VObj [(contentType, VObj [("schema", schema)])])]),
          sharedSchemas')
  end.

(** index.js 97-123. *)
Definition addRequestPathParams (sharedSchemas : value) (route : RouteObject)
    (pathParams : list string) (validators : option (assoc Joi))
  : result (RouteObject * value) :=
  converted <-
    match validator_at validators "path" with
    | Some validator =>
        let '(schema, sharedSchemas') := joi2json_call validator sharedSchemas in
        schema <- delete_prop schema "schemas" ;;
        Ok (schema, sharedSchemas')
    | None => Ok (VUndefined, sharedSchemas)
    end ;;
  let '(pathParamSchema, sharedSchemas') := converted in
  pushed <-
    map_m (fun param : string =>
             schema <-
               (if truthy pathParamSchema
                then _convertJsonSchemaToParamObj pathParamSchema (VStr param)
                else Ok [("name", VStr param);
                         ("required", VBool true);
                         ("schema", VObj [("type", VStr "string")])]) ;;
             let schema := assoc_set schema "in" (VStr "path") in
             let schema :=
               if negb (truthy (obj_field schema "description"))
               then assoc_set schema "description" (VStr "")
               else schema in
             Ok (VObj schema))
          pathParams ;;
  Ok (set_parameters route (r_parameters route ++ pushed)%list, sharedSchemas').

(** One turn of the [forEach] of index.js 125-144. *)
Definition addOneResponseExample (acc : RouteObject * value) (example : ResponseExample)
  : result (RouteObject * value) :=
  let '(route, sharedSchemas) := acc in
  match ex_schema example with
  | None => Ok (route, sharedSchemas)
  | Some joiSchema =>
      let '(schema, sharedSchemas') := joi2json_call joiSchema sharedSchemas in
      schema <- delete_prop schema "schemas" ;;
      let mediaType :=
        if truthy (ex_mediaType example) then ex_mediaType example
        else VStr "application/json" in
      let description :=
        if truthy (ex_description example) then ex_description example
        else VStr "Normal Response" in
      let response :=
        VObj [("description", description);
              ("content", VObj [(js_to_string mediaType, VObj [("schema", schema)])])] in
      Ok (set_responses route
            (assoc_set (r_responses route) (js_to_string (ex_code example)) response),
          sharedSchemas')
  end.

Fixpoint fold_m {A B : Type} (f : A -> B -> result A) (l : list B) (a : A) : result A :=
  match l with
  | [] => Ok a
  | x :: tl => a' <- f a x ;; fold_m f tl a'
  end.

(** index.js 125-144. *)
Definition addResponseExample (sharedSchemas : value)
    (responseExamples : list ResponseExample) (route : RouteObject)
  : result (RouteObject * value) :=
  fold_m addOneResponseExample responseExamples (route, sharedSchemas).

(** Property write-back of the store: [sharedSchemas] is the very object
    held at [docEntity.components.schemas], so what the converter added to
    it is visible in the document. *)
Definition store_of (docEntity : DocEntity) : value :=
  obj_field (doc_components docEntity) "schemas".

Definition with_store (components : assoc value) (sharedSchemas' : value)
  : assoc value :=
  match obj_field components "schemas" with
  | VObj _ => assoc_set components "schemas" sharedSchemas'
  | _ => components
  end.

(** index.js 164-171: the deep copy of the route template, tagged and
    labelled. *)
Definition newSwaggerReq (routeEntity : RouteObject) (tag : string)
    (routeDef : RouteDefinition) : RouteObject :=
  {| r_tags := (r_tags routeEntity ++ [VStr tag])%list;
     r_summary := rd_summary routeDef;
     r_description := rd_description routeDef;
     r_security := rd_security routeDef;
     r_deprecated :=
       if truthy (rd_deprecated routeDef) then Some (rd_deprecated routeDef)
       else r_deprecated routeEntity;
     r_parameters := r_parameters routeEntity;
     r_requestBody := r_requestBody routeEntity;
     r_responses := r_responses routeEntity;
     r_extra := r_extra routeEntity |}.

(** index.js 178-190: the fixed order in which the locations are
    processed. *)
Definition fillSwaggerReq (sharedSchemas : value) (swaggerReq : RouteObject)
    (pathParams : list string) (routeDef : RouteDefinition)
  : result (RouteObject * value) :=
  let validators := rd_validators routeDef in
  s1 <- addRequestPathParams sharedSchemas swaggerReq pathParams validators ;;
  s2 <- addRouteParameters (snd s1) (fst s1) validators "query" ;;
  s3 <- addRouteParameters (snd s2) (fst s2) validators "queryStringParameters" ;;
  s4 <- addRouteParameters (snd s3) (fst s3) validators "header" ;;
  s5 <- addRouteParameters (snd s4) (fst s4) validators "pathParameters" ;;
  s6 <- addRequestBodyParams (snd s5) (fst s5) validators ;;
  addResponseExample (snd s6) (rd_responseExamples routeDef) (fst s6).

(** index.js 146-191.  The route object is stored under its path and
    method before it is filled; since it is stored by reference, the
    document ends up holding the filled object. *)
Definition buildSwaggerRequest (docEntity : DocEntity) (routeEntity : RouteObject)
    (tag basePath : string) (routeDef : RouteDefinition) : result DocEntity :=
  let routePaths := doc_paths docEntity in
  let '(pathString, pathParams) := pathTemplate basePath (rd_path routeDef) in
  let routePath := or_default (assoc_get routePaths pathString) [] in
  let swaggerReq := newSwaggerReq routeEntity tag routeDef in
  filled <- fillSwaggerReq (store_of docEntity) swaggerReq pathParams routeDef ;;
  Ok {| doc_tags := doc_tags docEntity;
        doc_paths :=
          assoc_set routePaths pathString
            (assoc_set routePath (rd_method routeDef) (fst filled));
        doc_components := with_store (doc_components docEntity) (snd filled);
        doc_extra := doc_extra docEntity |}.

(** [s.replace(/\//g, "-")]. *)
Fixpoint replace_all_char (c d : ascii) (s : string) : string :=
  match s with
  | EmptyString => EmptyString
  | String x tl =>
      String (if Ascii.eqb x c then d else x) (replace_all_char c d tl)
  end.

Definition moduleIdOf (basePath : string) : string :=
  replace_all_char "/"%char "-"%char (substring_from_1 basePath).

(** [s || d] for an optional string: absent and empty are both falsy. *)
Definition string_or (o : option string) (d : string) : string :=
  match o with
  | Some s => if (s =? "")%string then d else s
  | None => d
  end.

Definition tagOf (moduleRoutes : RouteModule) : string :=
  string_or (rm_name moduleRoutes) (moduleIdOf (rm_basePath moduleRoutes)).

Definition tagObjectOf (moduleRoutes : RouteModule) : value :=
  VObj [("name", VStr (tagOf moduleRoutes));
        ("description",
         VStr (string_or (rm_description moduleRoutes)
                 (moduleIdOf (rm_basePath moduleRoutes))))].

(** The predicate of [_.find(tags, { name })]. *)
Definition tag_named (name : string) (t : value) : bool :=
  match get_prop t "name" with
  | Ok v => is_str v name
  | Throw _ => false
  end.

(** index.js 193-204. *)
Definition registerTag (tags : list value) (moduleRoutes : RouteModule) : list value :=
  match find (tag_named (tagOf moduleRoutes)) tags with
  | Some _ => tags
  | None => (tags ++ [tagObjectOf moduleRoutes])%list
  end.

(** index.js 193-215. *)
Definition buildModuleRoutes (docEntity : DocEntity) (routeEntity : RouteObject)
    (moduleRoutes : RouteModule) : result DocEntity :=
  let docEntity :=
    {| doc_tags := registerTag (doc_tags docEntity) moduleRoutes;
       doc_paths := doc_paths docEntity;
       doc_components := doc_components docEntity;
       doc_extra := doc_extra docEntity |} in
  fold_m (fun doc routeDef =>
            buildSwaggerRequest doc routeEntity (tagOf moduleRoutes)
              (rm_basePath moduleRoutes) routeDef)
         (rm_routes moduleRoutes) docEntity.

(** index.js 278-307: one entry per introspected key, labelled ["path"] in
    both loops. *)
Definition sideParameters (validators : option (assoc Joi)) (position : string)
  : list SideParameter :=
  match validator_at validators position with
  | Some validator =>
      map (fun kf : string * value =>
             {| sp_in := "path";
                sp_name := fst kf;
                sp_schema := extract validator (fst kf);
                sp_required := is_str (snd kf) "required" |})
          (terms_keys validator)
  | None => []
  end.

(** [route.parameters = ps]. *)
Definition set_rd_parameters (route : RouteDefinition)
    (ps : option (list SideParameter)) : RouteDefinition :=
  {| rd_method := rd_method route;
     rd_path := rd_path route;
     rd_summary := rd_summary route;
     rd_description := rd_description route;
     rd_security := rd_security route;
     rd_deprecated := rd_deprecated route;
     rd_validators := rd_validators route;
     rd_responseExamples := rd_responseExamples route;
     rd_parameters := ps |}.

(** index.js 273-308, for one route: [parameters] becomes an array if it
    was absent, then receives the entries of the two loops. *)
Definition introspectRoute (route : RouteDefinition) : RouteDefinition :=
  set_rd_parameters route
    (Some (or_default (rd_parameters route) []
           ++ sideParameters (rd_validators route) "pathParameters"
           ++ sideParameters (rd_validators route) "queryStringParameters")%list).

Definition introspectModule (endpoint : RouteModule) : RouteModule :=
  {| rm_basePath := rm_basePath endpoint;
     rm_name := rm_name endpoint;
     rm_description := rm_description endpoint;
     rm_routes := map introspectRoute (rm_routes endpoint) |}.

Definition buildAll (docEntity : DocEntity) (routeEntity : RouteObject)
    (allModuleRoutes : list RouteModule) : result DocEntity :=
  fold_m (fun doc moduleRoutes => buildModuleRoutes doc routeEntity moduleRoutes)
         allModuleRoutes docEntity.

(** index.js 217-316, on a module list whose route definitions are
    objects of their own, each with a [parameters] array of its own.  The
    first component is [allModuleRoutes] as the call leaves it, the second
    the returned document (or the exception).  [convertInPlace] below is
    the function on route definitions that may be shared. *)
Definition convert (allModuleRoutes : list RouteModule) (docSkeleton : DocSkeleton)
    (routeSkeleton : RouteSkeleton) : list RouteModule * result DocEntity :=
  let docEntity := assignDoc DOC_ROOT_TEMPLATE docSkeleton in
  let routeEntity := assignRoute ROUTE_DEF_TEMPLATE routeSkeleton in
  let allModuleRoutes := map introspectModule allModuleRoutes in
  (allModuleRoutes, buildAll docEntity routeEntity allModuleRoutes).

(* ------------------------------------------------------------------ *)
(** *** Vocabulary of the statements about responses and tags *)






(** The first module of the list whose tag is [name]. *)
Definition first_module_tagged (name : string) (modules : list RouteModule)
  : option RouteModule :=
  find (fun m => (tagOf m =? name)%string) modules.

End Conversion.

(** How many tags of the list carry the name. *)
Definition count_tag (name : string) (tags : list value) : nat :=
  List.length (filter (tag_named name) tags).

(** The shape of a converted location schema: an object whose [required],
    if any, is an array, and whose [properties], if any, is an object of
    field schemas that are objects themselves. *)
Definition is_object (v : value) : bool :=
  match v with VObj _ => true | _ => false end.




(* ------------------------------------------------------------------ *)
(** *** PathTemplater, as the specification words it *)

Definition is_variable_segment (segment : string) : bool :=
  match segment with
  | String c _ => Ascii.eqb c ":"%char
  | EmptyString => false
  end.

Definition bare_name (segment : string) : string :=
  match segment with
  | String _ name => name
  | EmptyString => EmptyString
  end.

(** The replacement of a segment by the [map] callback. *)
Definition templated (segment : string) : string :=
  if is_variable_segment segment then "{" ++ bare_name segment ++ "}" else segment.

Definition spec_pathTemplate (basePath path : string) : string * list string :=
  let segments := split_on "/"%char (basePath ++ path) in
  (String.concat "/"
     (map (fun segment =>
             if is_variable_segment segment then "{" ++ bare_name segment ++ "}"
             else segment) segments),
   map bare_name (filter is_variable_segment segments)).

(* ------------------------------------------------------------------ *)
(** *** A concrete validator library for the examples

    A validator is written as the JSON schema it converts to; the
    converter returns it and leaves the store alone; object validators
    list their top-level keys, each with empty flags. *)

Definition literal_joi2json (validator sharedSchemas : value) : value * value :=
  (validator, sharedSchemas).

Definition literal_terms_keys (validator : value) : list (string * value) :=
  match get_prop validator "properties" with
  | Ok (VObj ps) => map (fun kv => (fst kv, VObj [])) ps
  | _ => []
  end.

Definition literal_extract (validator : value) (key : string) : value :=
  match get_prop validator "properties" with
  | Ok ps => match get_prop ps key with Ok s => s | Throw _ => VUndefined end
  | Throw _ => VUndefined
  end.

Definition schema_ref (name : string) : value :=
  VObj [("$ref", VStr (SCHEMA_REF_PREFIX ++ name))].

Definition upload_schema : value :=
  VObj [("type", VStr "object");
        ("properties",
         VObj [("file", VObj [("type", VStr "string"); ("format", VStr "binary")])])].

(** [Body] refers to [Upload], which has the binary field: two hops from a
    schema that refers to [Body]. *)
Definition two_hop_store : value :=
  VObj [("Body", schema_ref "Upload"); ("Upload", upload_schema)].

(** [Node] refers to itself. *)
Definition cyclic_store : value :=
  VObj [("Node", schema_ref "Node")].

Definition email_schema : value :=
  VObj [("type", VStr "object");
        ("properties",
         VObj [("email", VObj [("type", VStr "string");
                               ("examples", VArr [VStr "a@b.com"])])])].

Definition tags_body_schema : value :=
  VObj [("type", VStr "object");
        ("properties", VObj [("tags", VObj [("type", VStr "array")])])].

Definition files_body_schema : value :=
  VObj [("type", VStr "object");
        ("properties",
         VObj [("files", VObj [("type", VStr "array");
                               ("items", VObj [("type", VStr "string");
                                               ("format", VStr "binary")])])])].

Definition page_schema : value :=
  VObj [("type", VStr "object");
        ("properties", VObj [("page", VObj [("type", VStr "integer")])])].


(** Three response examples: two for code 200, the later one with its own
    media type and description, and one without schema for code 404. *)
Definition ok_example : ResponseExample value :=
  {| ex_code := VNum 200;
     ex_schema := Some page_schema;
     ex_mediaType := VUndefined;
     ex_description := VUndefined |}.



(** A module without routes under [/users], with the given description. *)
Definition users_module (description : string) : RouteModule value :=
  {| rm_basePath := "/users";
     rm_name := None;
     rm_description := Some description;
     rm_routes := [] |}.

(** [GET /users/:id] with a query-string validator, a file upload body
    and a response example; no skeleton. *)
Definition upload_route : RouteDefinition value :=
  {| rd_method := "get";
     rd_path := "/:id";
     rd_summary := VStr "Upload";
     rd_description := VUndefined;
     rd_security := VUndefined;
     rd_deprecated := VUndefined;
     rd_validators :=
       Some [("queryStringParameters", page_schema); ("body", files_body_schema)];
     rd_responseExamples := [ok_example];
     rd_parameters := None |}.


Definition users_api : RouteModule value :=
  {| rm_basePath := "/users";
     rm_name := None;
     rm_description := None;
     rm_routes := [upload_route] |}.

Definition no_doc_skeleton : DocSkeleton :=
  {| ds_tags := None; ds_paths := None; ds_components := None; ds_extra := [] |}.

Definition no_route_skeleton : RouteSkeleton :=
  {| rs_tags := None; rs_summary := None; rs_description := None;
     rs_security := None; rs_deprecated := None; rs_parameters := None;
     rs_requestBody := None; rs_responses := None; rs_extra := [] |}.

(** The store of the built-in document: [Error] only. *)
Definition default_store : assoc value :=
  match assoc_get (doc_components DOC_ROOT_TEMPLATE) "schemas" with
  | Some (VObj fs) => fs
  | _ => []
  end.


(* ------------------------------------------------------------------ *)
(** *** Vocabulary of the statements about whole routes *)

(** The route object documented for a method of a path, if any. *)
Definition route_at (docEntity : DocEntity) (path method : string) : option RouteObject :=
  match assoc_get (doc_paths docEntity) path with
  | Some methods => assoc_get methods method
  | None => None
  end.



(** A field schema the detector can scan: an object whose [items] is an
    object when its [type] is ["array"]. *)
Definition scannable_field (f : value) : bool :=
  match f with
  | VObj fs =>
      if is_str (obj_field fs "type") "array"
      then is_object (obj_field fs "items")
      else true
  | _ => false
  end.

(** The field is binary: its own [format], or that of its [items] when it
    is an array. *)
Definition binary_field (f : value) : bool :=
  match f with
  | VObj fs =>
      if is_str (obj_field fs "type") "array"
      then match obj_field fs "items" with
           | VObj items => is_str (obj_field items "format") "binary"
           | _ => false
           end
      else is_str (obj_field fs "format") "binary"
  | _ => false
  end.




(** A path validator that knows [id] only. *)
Definition id_path_schema : value :=
  VObj [("type", VStr "object");
        ("properties", VObj [("id", VObj [("type", VStr "string")])])].

(** A document skeleton that brings security schemes only. *)
Definition security_only_skeleton : DocSkeleton :=
  {| ds_tags := None;
     ds_paths := None;
     ds_components := Some [("securitySchemes", VObj [])];
     ds_extra := [] |}.

(** A route without validators and examples. *)
Definition bare_route : RouteDefinition value :=
  {| rd_method := "delete";
     rd_path := "/:id/posts/:post";
     rd_summary := VStr "Remove";
     rd_description := VUndefined;
     rd_security := VUndefined;
     rd_deprecated := VBool true;
     rd_validators := None;
     rd_responseExamples := [];
     rd_parameters := None |}.

(* ================================================================== *)
(** ** The side channel of [convert] on shared objects (index.js 272-309)

    The two loops at the head of [convert] write into the route definition
    objects of its input: [parameters] is assigned, then entries are pushed
    into the array.  The input may hold one route definition at several
    positions (the same object in two modules, or one module listed
    twice), and several route definitions may hold one [parameters] array;
    such an object is written once per visit.  The route definitions and
    the [parameters] arrays therefore live in a heap, and a module lists
    references to its route definitions.  The arrays of the heap are
    objects apart from the two skeletons: a [parameters] array is not at
    the same time an array of [docSkeleton] or [routeSkeleton]. *)

Definition ref : Type := nat.

(** [f] with the content of [r] replaced. *)
Definition update {A : Type} (f : ref -> A) (r : ref) (a : A) : ref -> A :=
  fun x => if Nat.eqb x r then a else f x.

Section InPlace.

Variable Joi : Type.
Variable terms_keys : Joi -> list (string * value).
Variable extract : Joi -> string -> Joi.
Variable joi2json : Joi -> value -> value * value.

(** A route definition object: the fields the loops only read, and its
    [parameters] property, absent or a reference to an array.  (The
    [rd_parameters] of [cell_route] is not used: see [readRoute].) *)
Record RouteCell : Type := mkRouteCell {
  cell_route : RouteDefinition Joi;
  cell_parameters : option ref
}.

(** The route definition objects, the [parameters] arrays, and the next
    reference not in use. *)
Record Heap : Type := mkHeap {
  heap_routes : ref -> RouteCell;
  heap_arrays : ref -> list (SideParameter Joi);
  heap_next : ref
}.

Record ModuleObject : Type := mkModuleObject {
  mo_basePath : string;
  mo_name : option string;
  mo_description : option string;
  mo_routes : list ref
}.

(** index.js 275-276: [route.parameters = route.parameters || []].  An
    array that is there stays; otherwise a new empty array is installed.
    Returns the array the entries go to. *)
Definition ensureParameters (h : Heap) (route : ref) : Heap * ref :=
  match cell_parameters (heap_routes h route) with
  | Some array => (h, array)
  | None =>
      let array := heap_next h in
      ({| heap_routes :=
            update (heap_routes h) route
              {| cell_route := cell_route (heap_routes h route);
                 cell_parameters := Some array |};
          heap_arrays := update (heap_arrays h) array [];
          heap_next := S array |},
       array)
  end.

(** [array.push(entry)] for each entry in turn. *)
Definition pushParameters (h : Heap) (array : ref)
    (entries : list (SideParameter Joi)) : Heap :=
  {| heap_routes := heap_routes h;
     heap_arrays := update (heap_arrays h) array (heap_arrays h array ++ entries)%list;
     heap_next := heap_next h |}.

(** index.js 273-308: the callback of the inner [_.each]. *)
Definition visitRoute (h : Heap) (route : ref) : Heap :=
  let validators := rd_validators (cell_route (heap_routes h route)) in
  let '(h, array) := ensureParameters h route in
  let h := pushParameters h array
             (sideParameters terms_keys extract validators "pathParameters") in
  pushParameters h array
    (sideParameters terms_keys extract validators "queryStringParameters").

(** index.js 272-309. *)
Definition visitModule (h : Heap) (endpoint : ModuleObject) : Heap :=
  fold_left visitRoute (mo_routes endpoint) h.

Definition introspectInPlace (h : Heap) (allModuleRoutes : list ModuleObject) : Heap :=
  fold_left visitModule allModuleRoutes h.

(** The route definition and the module a reference stands for. *)
Definition readRoute (h : Heap) (route : ref) : RouteDefinition Joi :=
  set_rd_parameters (cell_route (heap_routes h route))
    (option_map (heap_arrays h) (cell_parameters (heap_routes h route))).

Definition readModule (h : Heap) (endpoint : ModuleObject) : RouteModule Joi :=
  {| rm_basePath := mo_basePath endpoint;
     rm_name := mo_name endpoint;
     rm_description := mo_description endpoint;
     rm_routes := map (readRoute h) (mo_routes endpoint) |}.

(** index.js 217-316: the heap as the call leaves it, and the returned
    document (or the exception), built from the objects after the loops. *)
Definition convertInPlace (h : Heap) (allModuleRoutes : list ModuleObject)
    (docSkeleton : DocSkeleton) (routeSkeleton : RouteSkeleton)
  : Heap * result DocEntity :=
  let docEntity := assignDoc DOC_ROOT_TEMPLATE docSkeleton in
  let routeEntity := assignRoute ROUTE_DEF_TEMPLATE routeSkeleton in
  let h := introspectInPlace h allModuleRoutes in
  (h, buildAll joi2json docEntity routeEntity (map (readModule h) allModuleRoutes)).

(* ------------------------------------------------------------------ *)
(** *** Vocabulary of the statements about the side channel *)

(** The references the loops visit, in order. *)
Definition visited (allModuleRoutes : list ModuleObject) : list ref :=
  List.concat (map mo_routes allModuleRoutes).

(** What the [parameters] of a route definition holds. *)
Definition parameters_of (h : Heap) (route : ref) : list (SideParameter Joi) :=
  match cell_parameters (heap_routes h route) with
  | Some array => heap_arrays h array
  | None => []
  end.

(** The array a visit of the route definition pushes to. *)
Definition array_of (h : Heap) (route : ref) : ref :=
  match cell_parameters (heap_routes h route) with
  | Some array => array
  | None => heap_next h
  end.

(** The route definitions of the list are distinct objects with distinct
    [parameters] arrays, all of them allocated. *)
Definition distinct_on (h : Heap) (routes : list ref) : Prop :=
  NoDup routes
  /\ (forall route route' array,
        In route routes -> In route' routes ->
        cell_parameters (heap_routes h route) = Some array ->
        cell_parameters (heap_routes h route') = Some array ->
        route = route')
  /\ (forall route array,
        In route routes ->
        cell_parameters (heap_routes h route) = Some array ->
        (array < heap_next h)%nat).

Definition distinct_objects (h : Heap) (allModuleRoutes : list ModuleObject) : Prop :=
  distinct_on h (visited allModuleRoutes).

(** The entries for the keys of a validator, if there is one: each is
    labelled ["path"]. *)
Definition path_entries (validator : option Joi) : list (SideParameter Joi) :=
  match validator with
  | Some validator =>
      map (fun kf : string * value =>
             {| sp_in := "path";
                sp_name := fst kf;
                sp_schema := extract validator (fst kf);
                sp_required := is_str (snd kf) "required" |})
          (terms_keys validator)
  | None => []
  end.

End InPlace.

(* ------------------------------------------------------------------ *)
(** *** Example heaps

    Route definition 0 is [upload_route], without [parameters]; route
    definition 1 is [bare_route].  In [shared_array_heap] both hold the
    array 0. *)

Definition example_heap : Heap value :=
  {| heap_routes := fun r =>
       match r with
       | O => {| cell_route := upload_route; cell_parameters := None |}
       | _ => {| cell_route := bare_route; cell_parameters := None |}
       end;
     heap_arrays := fun _ => [];
     heap_next := O |}.

Definition shared_array_heap : Heap value :=
  {| heap_routes := fun r =>
       match r with
       | O => {| cell_route := upload_route; cell_parameters := Some O |}
       | _ => {| cell_route := bare_route; cell_parameters := Some O |}
       end;
     heap_arrays := fun _ => [];
     heap_next := 1%nat |}.

Definition users_module_object (routes : list ref) : ModuleObject :=
  {| mo_basePath := "/users";
     mo_name := None;
     mo_description := None;
     mo_routes := routes |}.

(** The entry pushed for the key [page] of [page_schema]. *)
Definition page_entry : SideParameter value :=
  {| sp_in := "path";
     sp_name := "page";
     sp_schema := VObj [("type", VStr "integer")];
     sp_required := false |}.

(* ================================================================== *)
(** * Properties *)

Unset Implicit Arguments.

(** ** Association lists *)

Ltac string_cases a b :=
  let E := fresh "E" in
  destruct (String.eqb a b) eqn:E;
  [apply String.eqb_eq in E; subst | apply String.eqb_neq in E].

Lemma assoc_get_app {A : Type} (fs gs : assoc A) (k : string) :
  assoc_get (fs ++ gs)%list k =
  match assoc_get fs k with Some x => Some x | None => assoc_get gs k end.
Proof.
  induction fs as [|[k' v'] tl IH]; simpl; [reflexivity|].
  destruct (String.eqb k' k); auto.
Qed.

Lemma assoc_get_replace_same {A : Type} (fs : assoc A) (k : string) (v : A) :
  assoc_has fs k = true -> assoc_get (assoc_replace fs k v) k = Some v.
Proof.
  unfold assoc_has.
  induction fs as [|[k' v'] tl IH]; simpl; [discriminate|].
  destruct (String.eqb k' k) eqn:E; simpl; rewrite E; auto.
Qed.

Lemma assoc_get_replace_other {A : Type} (fs : assoc A) (k k' : string) (v : A) :
  k' <> k -> assoc_get (assoc_replace fs k v) k' = assoc_get fs k'.
Proof.
  intros Hne.
  induction fs as [|[k0 v0] tl IH]; simpl; [reflexivity|].
  string_cases k0 k; simpl.
  - string_cases k k'; [congruence | reflexivity].
  - rewrite IH. reflexivity.
Qed.

Lemma assoc_get_insert_index_same {A : Type} (fs : assoc A) n (k : string) (v : A) :
  assoc_get fs k = None -> assoc_get (assoc_insert_index fs n k v) k = Some v.
Proof.
  induction fs as [|[k0 v0] tl IH]; simpl; intros Hnone.
  - now rewrite String.eqb_refl.
  - destruct (String.eqb k0 k) eqn:E; [discriminate|].
    destruct (array_index k0) as [n'|]; [destruct (n' <? n)%N|]; simpl;
      rewrite ?E, ?String.eqb_refl; auto.
Qed.

Lemma assoc_get_insert_index_other {A : Type} (fs : assoc A) n (k k' : string) (v : A) :
  k' <> k -> assoc_get (assoc_insert_index fs n k v) k' = assoc_get fs k'.
Proof.
  intros Hne.
  assert (Hk : String.eqb k k' = false) by (apply String.eqb_neq; congruence).
  induction fs as [|[k0 v0] tl IH]; simpl.
  - now rewrite Hk.
  - destruct (array_index k0) as [n'|]; [destruct (n' <? n)%N|]; simpl;
      rewrite ?Hk, ?IH; reflexivity.
Qed.

Lemma assoc_get_set_same {A : Type} (fs : assoc A) (k : string) (v : A) :
  assoc_get (assoc_set fs k v) k = Some v.
Proof.
  unfold assoc_set.
  destruct (assoc_has fs k) eqn:Hhas.
  - now apply assoc_get_replace_same.
  - assert (Hnone : assoc_get fs k = None).
    { unfold assoc_has in Hhas. destruct (assoc_get fs k); [discriminate | reflexivity]. }
    destruct (array_index k).
    + now apply assoc_get_insert_index_same.
    + rewrite assoc_get_app, Hnone. simpl. now rewrite String.eqb_refl.
Qed.

Lemma assoc_get_set_other {A : Type} (fs : assoc A) (k k' : string) (v : A) :
  k' <> k -> assoc_get (assoc_set fs k v) k' = assoc_get fs k'.
Proof.
  intros Hne. unfold assoc_set.
  destruct (assoc_has fs k).
  - now apply assoc_get_replace_other.
  - destruct (array_index k).
    + now apply assoc_get_insert_index_other.
    + rewrite assoc_get_app. simpl.
      string_cases k k'; [congruence|].
      destruct (assoc_get fs k'); reflexivity.
Qed.

Lemma assoc_get_remove_other {A : Type} (fs : assoc A) (k k' : string) :
  k' <> k -> assoc_get (assoc_remove fs k) k' = assoc_get fs k'.
Proof.
  intros Hne.
  induction fs as [|[k0 v0] tl IH]; simpl; [reflexivity|].
  string_cases k0 k; simpl.
  - string_cases k k'; [congruence | exact IH].
  - rewrite IH. reflexivity.
Qed.

Lemma assoc_get_In {A : Type} (fs : assoc A) (k : string) (v : A) :
  assoc_get fs k = Some v -> In (k, v) fs.
Proof.
  induction fs as [|[k0 v0] tl IH]; simpl; [discriminate|].
  string_cases k0 k.
  - intros [= ->]. now left.
  - intros H. right. now apply IH.
Qed.




Lemma obj_field_remove_other (fs : assoc value) (k k' : string) :
  k' <> k -> obj_field (assoc_remove fs k) k' = obj_field fs k'.
Proof. intros. unfold obj_field. now rewrite assoc_get_remove_other. Qed.

(* ================================================================== *)
(** ** BinaryDetector *)

(** A call that was handed no store returns at once or throws: it cannot
    follow a reference, so one activation decides it. *)
Lemma containsBinaryField_fuel_no_store (fuel : nat) (schema : value) :
  containsBinaryField_fuel (S fuel) schema VUndefined =
  containsBinaryField_fuel 1 schema VUndefined.
Proof. reflexivity. Qed.

(** Enough fuel gives the result: two activations always suffice. *)
Lemma containsBinaryField_fuel_enough (fuel : nat) (schema sharedSchemas : value) :
  containsBinaryField_fuel (2 + fuel) schema sharedSchemas =
  Some (containsBinaryField schema sharedSchemas).
Proof.
  unfold containsBinaryField.
  change (2 + fuel)%nat with (S (S fuel)).
  cbn [containsBinaryField_fuel].
  destruct (anyTopLevelBinary schema) as [[|]|e]; try reflexivity.
  destruct (get_prop schema "$ref") as [ref|e]; try reflexivity.
  destruct (truthy ref); try reflexivity.
  destruct (js_replace ref SCHEMA_REF_PREFIX "") as [name|e]; try reflexivity.
  destruct (get_prop sharedSchemas name) as [target|e]; try reflexivity.
  destruct (anyTopLevelBinary target) as [[|]|e]; try reflexivity.
  destruct (get_prop target "$ref") as [ref'|e]; try reflexivity.
  destruct (truthy ref'); try reflexivity.
  destruct (js_replace ref' SCHEMA_REF_PREFIX "") as [name'|e]; reflexivity.
Qed.

(** The detector written out: the scan of the root, then at most one
    resolved reference, whose own reference cannot be resolved. *)
Lemma containsBinaryField_unfold (schema sharedSchemas : value) :
  containsBinaryField schema sharedSchemas =
  (b <- anyTopLevelBinary schema ;;
   if b then Ok true else
   ref <- get_prop schema "$ref" ;;
   if truthy ref then
     name <- js_replace ref SCHEMA_REF_PREFIX "" ;;
     target <- get_prop sharedSchemas name ;;
     b' <- anyTopLevelBinary target ;;
     if b' then Ok true else
     ref' <- get_prop target "$ref" ;;
     if truthy ref' then
       _ <- js_replace ref' SCHEMA_REF_PREFIX "" ;; Throw TypeError
     else Ok false
   else Ok false).
Proof.
  unfold containsBinaryField. cbn [containsBinaryField_fuel].
  destruct (anyTopLevelBinary schema) as [[|]|e]; try reflexivity.
  cbn [bind].
  destruct (get_prop schema "$ref") as [ref|e]; try reflexivity.
  cbn [bind].
  destruct (truthy ref); try reflexivity.
  destruct (js_replace ref SCHEMA_REF_PREFIX "") as [name|e]; try reflexivity.
  cbn [bind].
  destruct (get_prop sharedSchemas name) as [target|e]; try reflexivity.
  cbn [bind].
  destruct (anyTopLevelBinary target) as [[|]|e]; try reflexivity.
  cbn [bind].
  destruct (get_prop target "$ref") as [ref'|e]; try reflexivity.
  cbn [bind].
  destruct (truthy ref'); try reflexivity.
  destruct (js_replace ref' SCHEMA_REF_PREFIX "") as [name'|[]]; reflexivity.
Qed.


Lemma get_prop_head (k : string) (v : value) (rest : assoc value) :
  get_prop (VObj ((k, v) :: rest)) k = Ok v.
Proof. simpl. now rewrite String.eqb_refl. Qed.





(** C5, refuted as stated.  [Missing] is not in the store: the detector
    throws instead of answering. *)
Lemma missing_reference_throws :
  assoc_get default_store "Missing" = None
  /\ containsBinaryField (schema_ref "Missing") (VObj default_store) = Throw TypeError
  /\ containsBinaryField (schema_ref "Missing") (VObj default_store) <> Ok false.
Proof. repeat split; try reflexivity. discriminate. Qed.

(** C5, as it holds.  When the root-level [$ref] of the body schema names a
    schema that the store lacks, and the name is not one of the members
    every object inherits ([toString], [constructor], ...: the lookup in the
    store would find those), the detector returns true if a top-level
    property of the body schema is already binary and throws a TypeError
    otherwise: it never answers "not binary". *)
Theorem containsBinaryField_missing_reference
    (schema : value) (store : assoc value) (r : string) :
  get_prop schema "$ref" = Ok (VStr r) ->
  r <> "" ->
  assoc_get store (replace_first SCHEMA_REF_PREFIX "" r) = None ->
  inherited_member (replace_first SCHEMA_REF_PREFIX "" r) = false ->
  containsBinaryField schema (VObj store) =
  match anyTopLevelBinary schema with
  | Ok true => Ok true
  | _ => Throw TypeError
  end.
Proof.
  intros Href Hr Hget _.
  rewrite containsBinaryField_unfold.
  destruct (anyTopLevelBinary schema) as [[|]|[]]; cbn [bind]; try reflexivity.
  rewrite Href. cbn [bind truthy].
  apply String.eqb_neq in Hr. rewrite Hr. cbn [negb js_replace bind get_prop].
  rewrite Hget. reflexivity.
Qed.

(** A reference to [Missing] against the built-in store. *)
Lemma containsBinaryField_missing_reference_witness :
  get_prop (schema_ref "Missing") "$ref" = Ok (VStr (SCHEMA_REF_PREFIX ++ "Missing"))
  /\ assoc_get default_store "Missing" = None
  /\ inherited_member "Missing" = false
  /\ containsBinaryField (schema_ref "Missing") (VObj default_store) = Throw TypeError.
Proof.
  split; [reflexivity|]. split; [reflexivity|]. split; [reflexivity|].
  exact (containsBinaryField_missing_reference (schema_ref "Missing") default_store
           (SCHEMA_REF_PREFIX ++ "Missing") eq_refl ltac:(discriminate) eq_refl eq_refl).
Defined.

(** C6, refuted as stated.  No schema and store make the detector run
    forever; on the store whose [Node] refers to itself the call ends
    within two activations, with a TypeError. *)
Lemma reference_cycle_terminates :
  containsBinaryField_fuel 2 (schema_ref "Node") cyclic_store = Some (Throw TypeError)
  /\ ~ (exists schema sharedSchemas : value,
          forall fuel : nat, containsBinaryField_fuel fuel schema sharedSchemas = None).
Proof.
  split; [reflexivity|].
  intros [schema [sharedSchemas Hdiv]].
  specialize (Hdiv 2%nat).
  rewrite (containsBinaryField_fuel_enough 0) in Hdiv. discriminate.
Qed.

(** C6, as it holds.  The detector terminates on every schema and every
    store, cyclic or not: two activations decide the call, and more fuel
    does not change the outcome. *)
Theorem containsBinaryField_terminates (schema sharedSchemas : value) :
  exists outcome : result bool,
    forall fuel : nat,
      containsBinaryField_fuel (2 + fuel) schema sharedSchemas = Some outcome.
Proof.
  exists (containsBinaryField schema sharedSchemas).
  intros fuel. apply containsBinaryField_fuel_enough.
Qed.

(* ================================================================== *)
(** ** PathTemplater *)

Lemma indexOf_is_0_marker (component : string) :
  indexOf_is_0 ":" component = is_variable_segment component.
Proof.
  unfold indexOf_is_0.
  destruct component as [|c tl]; [reflexivity|].
  cbn [String.index is_variable_segment String.prefix].
  destruct (ascii_dec ":" c) as [<-|Hne].
  - now destruct tl.
  - assert (E : Ascii.eqb c ":" = false) by (apply Ascii.eqb_neq; congruence).
    rewrite E. now destruct (String.index 0 ":" tl).
Qed.

Lemma substring_from_1_bare_name (component : string) :
  substring_from_1 component = bare_name component.
Proof. now destruct component. Qed.

(** The callback pushes exactly the bare names of the variable segments,
    in the order of the segments, after what [pathParams] already held. *)
Lemma mapComponents_spec (components : list string) (pathParams : list string) :
  mapComponents pathParams components =
  ((pathParams ++ map bare_name (filter is_variable_segment components))%list,
   map (fun segment =>
          if is_variable_segment segment then "{" ++ bare_name segment ++ "}"
          else segment) components).
Proof.
  revert pathParams.
  induction components as [|c tl IH]; intros pathParams; cbn [mapComponents filter map].
  - now rewrite app_nil_r.
  - unfold templateComponent.
    rewrite indexOf_is_0_marker, substring_from_1_bare_name.
    destruct (is_variable_segment c); rewrite IH; cbn [map].
    + now rewrite <- app_assoc.
    + reflexivity.
Qed.

(** C7.  The template of [basePath + path] is the concatenation split on
    ["/"], every segment that begins with [":"] replaced by its bare name in
    braces, joined with ["/"] again; [paramNames] lists those bare names
    from left to right.  For ["/users"] and ["/:id"] this gives
    ["/users/{id}"] and [["id"]]. *)
Theorem pathTemplate_spec (basePath path : string) :
  pathTemplate basePath path = spec_pathTemplate basePath path
  /\ pathTemplate "/users" "/:id" = ("/users/{id}", ["id"]).
Proof.
  split; [|reflexivity].
  unfold pathTemplate, spec_pathTemplate.
  now rewrite mapComponents_spec.
Qed.

(* ================================================================== *)
(** ** ParameterProjector *)





(** C1, the code at the failing input.  The field [email] has
    [examples: ["a@b.com"]] and no [example]: the projected parameter has
    [example] undefined and an empty description, without the suffix. *)
Theorem examples_list_is_lost :
  _convertJsonSchemaToParamObj email_schema (VStr "email") =
  Ok [("name", VStr "email");
      ("example", VUndefined);
      ("schema", VObj [("type", VStr "string"); ("examples", VArr [VStr "a@b.com"])]);
      ("description", VStr "")].
Proof. reflexivity. Qed.



Lemma all_objects_not_array_like (ps : assoc value) :
  forallb (fun kv => is_object (snd kv)) ps = true -> array_like_length ps = None.
Proof.
  intros Hall. unfold array_like_length.
  destruct (assoc_get ps "length") as [v|] eqn:E; [|reflexivity].
  apply assoc_get_In in E.
  rewrite forallb_forall in Hall. specialize (Hall _ E). simpl in Hall.
  destruct v; now try discriminate.
Qed.




(** A loop whose every turn keeps an observation keeps it overall. *)
Lemma fold_m_preserves {A B C : Type} (f : A -> B -> result A) (g : A -> C)
    (l : list B) (a a' : A) :
  (forall x b y, f x b = Ok y -> g y = g x) ->
  fold_m f l a = Ok a' -> g a' = g a.
Proof.
  intros Hstep. revert a. induction l as [|b tl IH]; intros a H; cbn [fold_m] in H.
  - now injection H as <-.
  - destruct (f a b) as [a1|] eqn:E; [|discriminate]. cbn [bind] in H.
    rewrite (IH _ H). eapply Hstep; eassumption.
Qed.

Lemma filter_app_count {A : Type} (p : A -> bool) (l l' : list A) :
  (List.length (filter p l) <= List.length (filter p (l ++ l')%list))%nat.
Proof. rewrite filter_app, length_app. lia. Qed.

(* ================================================================== *)
(** ** The builders, for any validator library *)

Section ConversionProperties.

Variable Joi : Type.
Variable terms_keys : Joi -> list (string * value).
Variable extract : Joi -> string -> Joi.
Variable joi2json : Joi -> value -> value * value.



Lemma addRequestPathParams_extends (sharedSchemas sharedSchemas' : value)
    (route route' : RouteObject) (pathParams : list string)
    (validators : option (assoc Joi)) :
  addRequestPathParams joi2json sharedSchemas route pathParams validators =
    Ok (route', sharedSchemas') ->
  exists pushed, r_parameters route' = (r_parameters route ++ pushed)%list.
Proof.
  unfold addRequestPathParams.
  match goal with
  | |- context [bind ?c _] => destruct c as [[pathParamSchema store1]|]
  end; [|discriminate].
  cbn [bind].
  match goal with
  | |- context [map_m ?f pathParams] => destruct (map_m f pathParams) as [pushed|]
  end; [|discriminate].
  cbn [bind]. intros [= <- _]. exists pushed. reflexivity.
Qed.




(** C4, as it holds.  Without a body validator the route is returned as it
    was.  With one, the outcome follows the detector on the converted
    schema: [multipart/form-data] when it returns true (as for an array
    field whose [items.format] is ["binary"]), [application/json] when it
    returns false, and the detector's exception, with no request body
    attached, when it throws. *)
Theorem addRequestBodyParams_spec
    (sharedSchemas : value) (swaggerReq : RouteObject) (validators : option (assoc Joi)) :
  (validator_at validators "body" = None ->
   addRequestBodyParams joi2json sharedSchemas swaggerReq validators =
   Ok (swaggerReq, sharedSchemas))
  /\ (forall (body : Joi) (schema : value),
        validator_at validators "body" = Some body ->
        delete_prop (fst (joi2json_call joi2json body sharedSchemas)) "schemas" =
          Ok schema ->
        let sharedSchemas' := snd (joi2json_call joi2json body sharedSchemas) in
        addRequestBodyParams joi2json sharedSchemas swaggerReq validators =
        match containsBinaryField schema sharedSchemas' with
        | Ok true =>
            Ok (set_requestBody swaggerReq
                  (VObj [("content",
                          VObj [("multipart/form-data", VObj [("schema", schema)])])]),
                sharedSchemas')
        | Ok false =>
            Ok (set_requestBody swaggerReq
                  (VObj [("content",
                          VObj [("application/json", VObj [("schema", schema)])])]),
                sharedSchemas')
        | Throw e => Throw e
        end).
Proof.
  unfold addRequestBodyParams. split.
  - intros ->. reflexivity.
  - intros body schema -> Hdel. cbn zeta.
    destruct (joi2json_call joi2json body sharedSchemas) as [schema0 store'].
    cbn [fst snd] in *. rewrite Hdel. cbn [bind].
    destruct (containsBinaryField schema store') as [[|]|e]; reflexivity.
Qed.

(* ------------------------------------------------------------------ *)
(** *** Response examples *)

Lemma find_app {A : Type} (p : A -> bool) (l1 l2 : list A) :
  find p (l1 ++ l2)%list =
  match find p l1 with Some x => Some x | None => find p l2 end.
Proof.
  induction l1 as [|x tl IH]; simpl; [reflexivity|].
  destruct (p x); auto.
Qed.




(* ------------------------------------------------------------------ *)
(** *** Tags *)

Lemma find_none_filter {A : Type} (p : A -> bool) (l : list A) :
  find p l = None -> filter p l = [].
Proof.
  induction l as [|x tl IH]; simpl; [reflexivity|].
  destruct (p x); [discriminate | exact IH].
Qed.

Lemma tag_named_tagObjectOf (name : string) (m : RouteModule Joi) :
  tag_named name (tagObjectOf m) = String.eqb (tagOf m) name.
Proof. reflexivity. Qed.

Lemma find_registerTag (name : string) (tags : list value) (m : RouteModule Joi) :
  find (tag_named name) (registerTag tags m) =
  match find (tag_named name) tags with
  | Some t => Some t
  | None => if String.eqb (tagOf m) name then Some (tagObjectOf m) else None
  end.
Proof.
  unfold registerTag.
  destruct (find (tag_named (tagOf m)) tags) as [t|] eqn:E.
  - destruct (find (tag_named name) tags) eqn:E'; [reflexivity|].
    string_cases (tagOf m) name; [congruence | reflexivity].
  - rewrite find_app. cbn [find]. rewrite tag_named_tagObjectOf.
    destruct (find (tag_named name) tags); reflexivity.
Qed.

Lemma count_tag_registerTag (name : string) (tags : list value) (m : RouteModule Joi) :
  (count_tag name (registerTag tags m) <= Nat.max 1 (count_tag name tags))%nat.
Proof.
  unfold registerTag, count_tag.
  destruct (find (tag_named (tagOf m)) tags) as [t|] eqn:E; [lia|].
  rewrite filter_app, length_app. cbn [filter]. rewrite tag_named_tagObjectOf.
  string_cases (tagOf m) name.
  - rewrite (find_none_filter _ _ E). cbn [List.length]. lia.
  - cbn [List.length]. lia.
Qed.

Lemma find_registerTags (name : string) (modules : list (RouteModule Joi))
    (tags : list value) :
  find (tag_named name) (fold_left (@registerTag Joi) modules tags) =
  match find (tag_named name) tags with
  | Some t => Some t
  | None => option_map (@tagObjectOf Joi) (first_module_tagged name modules)
  end.
Proof.
  revert tags. induction modules as [|m tl IH]; intros tags; cbn [fold_left].
  - now destruct (find (tag_named name) tags).
  - rewrite IH, find_registerTag. unfold first_module_tagged. cbn [find].
    destruct (find (tag_named name) tags); [reflexivity|].
    destruct (String.eqb (tagOf m) name); reflexivity.
Qed.

Lemma count_tag_registerTags (name : string) (modules : list (RouteModule Joi))
    (tags : list value) :
  (count_tag name (fold_left (@registerTag Joi) modules tags)
   <= Nat.max 1 (count_tag name tags))%nat.
Proof.
  revert tags. induction modules as [|m tl IH]; intros tags; cbn [fold_left]; [lia|].
  specialize (IH (registerTag tags m)).
  pose proof (count_tag_registerTag name tags m). lia.
Qed.

(** Processing routes leaves the tag list alone. *)
Lemma buildSwaggerRequest_tags (docEntity doc' : DocEntity) (routeEntity : RouteObject)
    (tag basePath : string) (routeDef : RouteDefinition Joi) :
  buildSwaggerRequest joi2json docEntity routeEntity tag basePath routeDef = Ok doc' ->
  doc_tags doc' = doc_tags docEntity.
Proof.
  unfold buildSwaggerRequest.
  destruct (pathTemplate basePath (rd_path routeDef)) as [pathString pathParams].
  destruct (fillSwaggerReq joi2json (store_of docEntity)
              (newSwaggerReq routeEntity tag routeDef) pathParams routeDef);
    cbn [bind]; [|discriminate].
  now intros [= <-].
Qed.

Lemma buildModuleRoutes_tags (docEntity doc' : DocEntity) (routeEntity : RouteObject)
    (m : RouteModule Joi) :
  buildModuleRoutes joi2json docEntity routeEntity m = Ok doc' ->
  doc_tags doc' = registerTag (doc_tags docEntity) m.
Proof.
  unfold buildModuleRoutes. intros H.
  apply (fold_m_preserves _ doc_tags) in H; [exact H|].
  intros x b y. apply buildSwaggerRequest_tags.
Qed.

Lemma buildAll_tags (modules : list (RouteModule Joi)) (docEntity doc' : DocEntity)
    (routeEntity : RouteObject) :
  buildAll joi2json docEntity routeEntity modules = Ok doc' ->
  doc_tags doc' = fold_left (@registerTag Joi) modules (doc_tags docEntity).
Proof.
  unfold buildAll. revert docEntity.
  induction modules as [|m tl IH]; intros docEntity H; cbn [fold_m fold_left] in *.
  - now injection H as <-.
  - destruct (buildModuleRoutes joi2json docEntity routeEntity m) as [doc1|] eqn:E;
      [|discriminate].
    cbn [bind] in H. rewrite (IH _ H). now rewrite (buildModuleRoutes_tags _ _ _ _ E).
Qed.

(** C8.  In the document that the processing of a list of modules
    returns, a name is carried by at most one tag unless the tag list
    handed in already carried it more often (the built-in list is empty);
    a tag that was there is kept as it was, and a name that was not there
    gets the tag object of the first module that derives it, so later
    modules with the same name do not replace its description. *)
Theorem tags_registered_once
    (modules : list (RouteModule Joi)) (docEntity doc' : DocEntity)
    (routeEntity : RouteObject) :
  buildAll joi2json docEntity routeEntity modules = Ok doc' ->
  (forall name,
      (count_tag name (doc_tags doc') <= Nat.max 1 (count_tag name (doc_tags docEntity)))%nat)
  /\ (doc_tags docEntity = [] -> forall name, (count_tag name (doc_tags doc') <= 1)%nat)
  /\ (forall name,
        find (tag_named name) (doc_tags doc') =
        match find (tag_named name) (doc_tags docEntity) with
        | Some t => Some t
        | None => option_map (@tagObjectOf Joi) (first_module_tagged name modules)
        end).
Proof.
  intros H. rewrite (buildAll_tags _ _ _ _ H).
  split; [|split].
  - intros name. apply count_tag_registerTags.
  - intros Hnil name. rewrite Hnil.
    pose proof (count_tag_registerTags name modules []) as Hle.
    cbn in Hle. exact Hle.
  - intros name. apply find_registerTags.
Qed.

(* ------------------------------------------------------------------ *)
(** *** The side channel of [convert] *)

Lemma buildSwaggerRequest_ignores_parameters
    (docEntity : DocEntity) (routeEntity : RouteObject) (tag basePath : string)
    (routeDef : RouteDefinition Joi) (ps : option (list (SideParameter Joi))) :
  buildSwaggerRequest joi2json docEntity routeEntity tag basePath
    (set_rd_parameters routeDef ps) =
  buildSwaggerRequest joi2json docEntity routeEntity tag basePath routeDef.
Proof. reflexivity. Qed.

(** The loops write into route definitions that live in a heap. *)

(** The entries a visit pushes for a route definition. *)
Lemma sideParameters_path_entries (validators : option (assoc Joi)) (position : string) :
  sideParameters terms_keys extract validators position =
  path_entries terms_keys extract
    (match validators with Some vs => assoc_get vs position | None => None end).
Proof. destruct validators; reflexivity. Qed.

Lemma update_same {A : Type} (f : ref -> A) (r : ref) (a : A) : update f r a r = a.
Proof. unfold update. now rewrite Nat.eqb_refl. Qed.

Lemma update_other {A : Type} (f : ref -> A) (r r' : ref) (a : A) :
  r' <> r -> update f r a r' = f r'.
Proof. intros Hne. unfold update. apply Nat.eqb_neq in Hne. now rewrite Hne. Qed.

Lemma visitRoute_cell (h : Heap Joi) (route : ref) :
  heap_routes (visitRoute terms_keys extract h route) route =
  {| cell_route := cell_route (heap_routes h route);
     cell_parameters := Some (array_of h route) |}.
Proof.
  unfold visitRoute, ensureParameters, array_of.
  destruct (heap_routes h route) as [def [array|]] eqn:E;
    cbn [pushParameters heap_routes cell_parameters cell_route];
    rewrite ?update_same, ?E; reflexivity.
Qed.

Lemma visitRoute_cell_other (h : Heap Joi) (route route' : ref) :
  route' <> route ->
  heap_routes (visitRoute terms_keys extract h route) route' = heap_routes h route'.
Proof.
  intros Hne. unfold visitRoute, ensureParameters.
  destruct (cell_parameters (heap_routes h route));
    cbn [pushParameters heap_routes]; [reflexivity|].
  now apply update_other.
Qed.

Lemma visitRoute_cell_route (h : Heap Joi) (route route' : ref) :
  cell_route (heap_routes (visitRoute terms_keys extract h route) route') =
  cell_route (heap_routes h route').
Proof.
  destruct (Nat.eq_dec route' route) as [->|Hne].
  - now rewrite visitRoute_cell.
  - now rewrite visitRoute_cell_other.
Qed.

Lemma visitRoute_array (h : Heap Joi) (route : ref) :
  heap_arrays (visitRoute terms_keys extract h route) (array_of h route) =
  (parameters_of h route
   ++ sideParameters terms_keys extract
        (rd_validators (cell_route (heap_routes h route))) "pathParameters"
   ++ sideParameters terms_keys extract
        (rd_validators (cell_route (heap_routes h route))) "queryStringParameters")%list.
Proof.
  unfold visitRoute, ensureParameters, array_of, parameters_of.
  destruct (cell_parameters (heap_routes h route)) as [array|];
    cbn [pushParameters heap_routes heap_arrays heap_next];
    rewrite !update_same; now rewrite <- app_assoc.
Qed.

Lemma visitRoute_array_other (h : Heap Joi) (route array : ref) :
  array <> array_of h route ->
  heap_arrays (visitRoute terms_keys extract h route) array = heap_arrays h array.
Proof.
  unfold visitRoute, ensureParameters, array_of. intros Hne.
  destruct (cell_parameters (heap_routes h route)) as [array'|];
    cbn [pushParameters heap_routes heap_arrays heap_next];
    now rewrite !update_other.
Qed.

Lemma visitRoute_next (h : Heap Joi) (route : ref) :
  heap_next (visitRoute terms_keys extract h route) =
  match cell_parameters (heap_routes h route) with
  | Some _ => heap_next h
  | None => S (heap_next h)
  end.
Proof.
  unfold visitRoute, ensureParameters.
  now destruct (cell_parameters (heap_routes h route)).
Qed.

Lemma visitRoute_next_le (h : Heap Joi) (route : ref) :
  (heap_next h <= heap_next (visitRoute terms_keys extract h route))%nat.
Proof. rewrite visitRoute_next. destruct (cell_parameters (heap_routes h route)); lia. Qed.

Lemma array_of_some (h : Heap Joi) (route array : ref) :
  cell_parameters (heap_routes h route) = Some array -> array_of h route = array.
Proof. unfold array_of. now intros ->. Qed.

(** A visit keeps the route definitions of a list distinct. *)
Lemma visitRoute_distinct (h : Heap Joi) (routes : list ref) (route : ref) :
  distinct_on h routes -> In route routes ->
  distinct_on (visitRoute terms_keys extract h route) routes.
Proof.
  intros [Hnodup [Hinj Hbound]] Hin.
  assert (Hfresh : forall r a, In r routes -> r <> route ->
            cell_parameters (heap_routes h r) = Some a -> a <> array_of h route).
  { intros r a Hr Hne Ha Heq. unfold array_of in Heq.
    destruct (cell_parameters (heap_routes h route)) as [a'|] eqn:E.
    - subst a'. apply Hne. exact (Hinj r route a Hr Hin Ha E).
    - pose proof (Hbound r a Hr Ha). lia. }
  split; [exact Hnodup|]. split.
  - intros r r' a Hr Hr'.
    destruct (Nat.eq_dec r route) as [->|Hne]; destruct (Nat.eq_dec r' route) as [->|Hne'];
      try reflexivity.
    + rewrite visitRoute_cell, (visitRoute_cell_other h route r' Hne').
      cbn [cell_parameters]. intros [= <-] Ha. now destruct (Hfresh r' _ Hr' Hne' Ha).
    + rewrite visitRoute_cell, (visitRoute_cell_other h route r Hne).
      cbn [cell_parameters]. intros Ha [= <-]. now destruct (Hfresh r _ Hr Hne Ha).
    + rewrite (visitRoute_cell_other h route r Hne), (visitRoute_cell_other h route r' Hne').
      now apply Hinj.
  - intros r a Hr. pose proof (visitRoute_next_le h route) as Hle.
    destruct (Nat.eq_dec r route) as [->|Hne].
    + rewrite visitRoute_cell. cbn [cell_parameters]. intros [= <-].
      rewrite visitRoute_next. unfold array_of.
      destruct (cell_parameters (heap_routes h route)) as [a|] eqn:E; [|lia].
      exact (Hbound route a Hin E).
    + rewrite (visitRoute_cell_other h route r Hne). intros Ha.
      pose proof (Hbound r a Hr Ha). lia.
Qed.

Lemma distinct_on_tail (h : Heap Joi) (route : ref) (routes : list ref) :
  distinct_on h (route :: routes) -> distinct_on h routes.
Proof.
  intros [Hnodup [Hinj Hbound]]. split; [now inversion Hnodup|]. split.
  - intros r r' a Hr Hr'. apply Hinj; now right.
  - intros r a Hr. apply Hbound. now right.
Qed.

(** What a sequence of visits leaves alone. *)
Lemma visits_cell_route (routes : list ref) (h : Heap Joi) (route : ref) :
  cell_route (heap_routes (fold_left (visitRoute terms_keys extract) routes h) route) =
  cell_route (heap_routes h route).
Proof.
  revert h. induction routes as [|r tl IH]; intros h; cbn [fold_left]; [reflexivity|].
  now rewrite IH, visitRoute_cell_route.
Qed.

Lemma visits_cell_parameters (routes : list ref) (h : Heap Joi) (route array : ref) :
  cell_parameters (heap_routes h route) = Some array ->
  cell_parameters (heap_routes (fold_left (visitRoute terms_keys extract) routes h) route) =
  Some array.
Proof.
  revert h. induction routes as [|r tl IH]; intros h Ha; cbn [fold_left]; [exact Ha|].
  apply IH. destruct (Nat.eq_dec route r) as [->|Hne].
  - rewrite visitRoute_cell. cbn [cell_parameters]. now rewrite (array_of_some h r array Ha).
  - now rewrite visitRoute_cell_other.
Qed.

Lemma visits_next_le (routes : list ref) (h : Heap Joi) :
  (heap_next h <= heap_next (fold_left (visitRoute terms_keys extract) routes h))%nat.
Proof.
  revert h. induction routes as [|r tl IH]; intros h; cbn [fold_left]; [lia|].
  pose proof (IH (visitRoute terms_keys extract h r)). pose proof (visitRoute_next_le h r). lia.
Qed.

Lemma visits_array_other (routes : list ref) (h : Heap Joi) (array : ref) :
  (array < heap_next h)%nat ->
  (forall r, In r routes -> cell_parameters (heap_routes h r) <> Some array) ->
  heap_arrays (fold_left (visitRoute terms_keys extract) routes h) array = heap_arrays h array.
Proof.
  revert h. induction routes as [|r tl IH]; intros h Hlt Hnot; cbn [fold_left];
    [reflexivity|].
  assert (Hne : array <> array_of h r).
  { unfold array_of. destruct (cell_parameters (heap_routes h r)) as [a|] eqn:E.
    - intros ->. apply (Hnot r); [now left | exact E].
    - lia. }
  rewrite IH.
  - now apply visitRoute_array_other.
  - pose proof (visitRoute_next_le h r). lia.
  - intros r' Hr'. destruct (Nat.eq_dec r' r) as [->|Hne'].
    + rewrite visitRoute_cell. cbn [cell_parameters]. congruence.
    + rewrite visitRoute_cell_other by assumption. apply Hnot. now right.
Qed.

(** The loops as one sequence of visits. *)
Lemma introspectInPlace_visits (allModuleRoutes : list ModuleObject) (h : Heap Joi) :
  introspectInPlace terms_keys extract h allModuleRoutes =
  fold_left (visitRoute terms_keys extract) (visited allModuleRoutes) h.
Proof.
  unfold introspectInPlace, visited. revert h.
  induction allModuleRoutes as [|m tl IH]; intros h; cbn [fold_left map List.concat];
    [reflexivity|].
  now rewrite fold_left_app, IH.
Qed.

(** After the visits of distinct route definitions, each holds an array
    with what it held before followed by its entries. *)
Lemma visits_distinct (routes : list ref) (h : Heap Joi) (route : ref) :
  distinct_on h routes -> In route routes ->
  exists array,
    cell_parameters (heap_routes (fold_left (visitRoute terms_keys extract) routes h) route) =
      Some array
    /\ heap_arrays (fold_left (visitRoute terms_keys extract) routes h) array =
       (parameters_of h route
        ++ sideParameters terms_keys extract
             (rd_validators (cell_route (heap_routes h route))) "pathParameters"
        ++ sideParameters terms_keys extract
             (rd_validators (cell_route (heap_routes h route)))
             "queryStringParameters")%list.
Proof.
  revert h. induction routes as [|r tl IH]; intros h Hd Hin; [destruct Hin|].
  cbn [fold_left].
  pose proof (visitRoute_distinct h (r :: tl) r Hd (or_introl eq_refl)) as Hd1.
  pose proof Hd as [Hnodup [Hinj Hbound]].
  pose proof Hd1 as [_ [Hinj1 Hbound1]].
  inversion Hnodup as [|? ? Hnotin Hnodup']; subst.
  destruct (Nat.eq_dec route r) as [->|Hne].
  - exists (array_of h r).
    assert (Hcell : cell_parameters (heap_routes (visitRoute terms_keys extract h r) r) =
                    Some (array_of h r)).
    { now rewrite visitRoute_cell. }
    split; [now apply visits_cell_parameters|].
    rewrite visits_array_other.
    + apply visitRoute_array.
    + apply (Hbound1 r); [now left | exact Hcell].
    + intros r' Hr' Ha. apply Hnotin.
      assert (Heq : r' = r).
      { apply (Hinj1 r' r (array_of h r)); [now right | now left | exact Ha | exact Hcell]. }
      now subst r'.
  - destruct Hin as [->|Hin]; [congruence|].
    destruct (IH (visitRoute terms_keys extract h r) (distinct_on_tail _ _ _ Hd1) Hin)
      as [array [Hcell Harr]].
    exists array. split; [exact Hcell|]. rewrite Harr.
    rewrite visitRoute_cell_route. f_equal.
    unfold parameters_of. rewrite (visitRoute_cell_other h r route Hne).
    destruct (cell_parameters (heap_routes h route)) as [a|] eqn:E; [|reflexivity].
    apply visitRoute_array_other. unfold array_of.
    destruct (cell_parameters (heap_routes h r)) as [a'|] eqn:E'.
    + intros ->. apply Hne. apply (Hinj route r a'); [now right | now left | exact E | exact E'].
    + pose proof (Hbound route a (or_intror Hin) E). lia.
Qed.

Lemma visits_keep_distinct (routes visits : list ref) (h : Heap Joi) :
  distinct_on h routes -> incl visits routes ->
  distinct_on (fold_left (visitRoute terms_keys extract) visits h) routes.
Proof.
  revert h. induction visits as [|r tl IH]; intros h Hd Hincl; cbn [fold_left]; [exact Hd|].
  apply IH.
  - apply visitRoute_distinct; [exact Hd | apply Hincl; now left].
  - intros x Hx. apply Hincl. now right.
Qed.


(** The document does not depend on the [parameters] of the route
    definitions. *)
Lemma fold_m_map_ext {A B C : Type} (f : A -> B -> result A) (g g' : C -> B)
    (l : list C) (a : A) :
  (forall x c, f x (g c) = f x (g' c)) ->
  fold_m f (map g l) a = fold_m f (map g' l) a.
Proof.
  intros Hext. revert a. induction l as [|c tl IH]; intros a; cbn [map fold_m].
  - reflexivity.
  - rewrite Hext. destruct (f a (g' c)); cbn [bind]; auto.
Qed.

Lemma buildModuleRoutes_read (h h' : Heap Joi) (docEntity : DocEntity)
    (routeEntity : RouteObject) (m : ModuleObject) :
  (forall route, cell_route (heap_routes h' route) = cell_route (heap_routes h route)) ->
  buildModuleRoutes joi2json docEntity routeEntity (readModule h' m) =
  buildModuleRoutes joi2json docEntity routeEntity (readModule h m).
Proof.
  intros Hsame. unfold buildModuleRoutes. cbn [readModule rm_routes rm_basePath].
  change (tagOf (readModule h' m)) with (tagOf (readModule h m)).
  change (registerTag (doc_tags docEntity) (readModule h' m))
    with (registerTag (doc_tags docEntity) (readModule h m)).
  apply fold_m_map_ext. intros doc route. unfold readRoute.
  rewrite !buildSwaggerRequest_ignores_parameters. now rewrite Hsame.
Qed.

Lemma buildAll_read (h h' : Heap Joi) (docEntity : DocEntity) (routeEntity : RouteObject)
    (allModuleRoutes : list ModuleObject) :
  (forall route, cell_route (heap_routes h' route) = cell_route (heap_routes h route)) ->
  buildAll joi2json docEntity routeEntity (map (readModule h') allModuleRoutes) =
  buildAll joi2json docEntity routeEntity (map (readModule h) allModuleRoutes).
Proof.
  intros Hsame. unfold buildAll. apply fold_m_map_ext.
  intros doc m. now apply buildModuleRoutes_read.
Qed.

(** C10.  [convert] writes into the route definitions it is handed.  When
    they are distinct objects with distinct [parameters] arrays, every
    route definition the loops visit ends with a [parameters] array: what
    it held, then one entry per key of the validator under
    [pathParameters], then one per key of the validator under
    [queryStringParameters], all of them labelled ["path"]; nothing else
    of a route definition changes.  The returned document does not depend
    on these arrays: it is the one built from the route definitions
    whatever their [parameters]. *)
Theorem convertInPlace_side_channel
    (h : Heap Joi) (allModuleRoutes : list ModuleObject) (docSkeleton : DocSkeleton)
    (routeSkeleton : RouteSkeleton) :
  distinct_objects h allModuleRoutes ->
  let after :=
    convertInPlace terms_keys extract joi2json h allModuleRoutes docSkeleton
      routeSkeleton in
  (forall route validators,
      In route (visited allModuleRoutes) ->
      rd_validators (cell_route (heap_routes h route)) = Some validators ->
      exists array,
        cell_parameters (heap_routes (fst after) route) = Some array
        /\ heap_arrays (fst after) array =
           (parameters_of h route
            ++ path_entries terms_keys extract (assoc_get validators "pathParameters")
            ++ path_entries terms_keys extract
                 (assoc_get validators "queryStringParameters"))%list)
  /\ (forall route,
        In route (visited allModuleRoutes) ->
        rd_validators (cell_route (heap_routes h route)) = None ->
        exists array,
          cell_parameters (heap_routes (fst after) route) = Some array
          /\ heap_arrays (fst after) array = parameters_of h route)
  /\ (forall route,
        cell_route (heap_routes (fst after) route) = cell_route (heap_routes h route))
  /\ (forall h' : Heap Joi,
        (forall route,
            cell_route (heap_routes h' route) = cell_route (heap_routes h route)) ->
        snd after =
        buildAll joi2json (assignDoc DOC_ROOT_TEMPLATE docSkeleton)
          (assignRoute ROUTE_DEF_TEMPLATE routeSkeleton)
          (map (readModule h') allModuleRoutes)).
Proof.
  intros Hd. cbv zeta. unfold convertInPlace. cbn [fst snd].
  rewrite introspectInPlace_visits.
  split; [|split; [|split]].
  - intros route validators Hin Hv.
    destruct (visits_distinct _ h route Hd Hin) as [array [Hcell Harr]].
    exists array. split; [exact Hcell|].
    now rewrite Harr, Hv, !sideParameters_path_entries.
  - intros route Hin Hv.
    destruct (visits_distinct _ h route Hd Hin) as [array [Hcell Harr]].
    exists array. split; [exact Hcell|].
    rewrite Harr, Hv. cbn [sideParameters validator_at]. now rewrite !app_nil_r.
  - intros route. apply visits_cell_route.
  - intros h' Hsame. apply buildAll_read.
    intros route. now rewrite visits_cell_route, Hsame.
Qed.

(** On distinct objects the heap after the loops reads as the module list
    that [convert] returns. *)
Lemma convertInPlace_convert
    (h : Heap Joi) (allModuleRoutes : list ModuleObject) (docSkeleton : DocSkeleton)
    (routeSkeleton : RouteSkeleton) :
  distinct_objects h allModuleRoutes ->
  let after :=
    convertInPlace terms_keys extract joi2json h allModuleRoutes docSkeleton
      routeSkeleton in
  let value_level :=
    convert terms_keys extract joi2json (map (readModule h) allModuleRoutes)
      docSkeleton routeSkeleton in
  map (readModule (fst after)) allModuleRoutes = fst value_level
  /\ snd after = snd value_level.
Proof.
  intros Hd. cbv zeta. unfold convertInPlace, convert. cbn [fst snd].
  rewrite introspectInPlace_visits.
  assert (Hmods : map (readModule (fold_left (visitRoute terms_keys extract)
                                     (visited allModuleRoutes) h))
                    allModuleRoutes =
                  map (introspectModule terms_keys extract)
                    (map (readModule h) allModuleRoutes)).
  { rewrite map_map. apply map_ext_in. intros m Hm.
    unfold readModule, introspectModule. cbn [rm_basePath rm_name rm_description rm_routes].
    f_equal. rewrite map_map. apply map_ext_in. intros route Hroute.
    assert (Hin : In route (visited allModuleRoutes)).
    { unfold visited. apply in_concat. exists (mo_routes m). split; [|exact Hroute].
      now apply in_map. }
    destruct (visits_distinct _ h route Hd Hin) as [array [Hcell Harr]].
    unfold readRoute, introspectRoute. rewrite Hcell, visits_cell_route.
    cbn [option_map set_rd_parameters rd_parameters rd_validators rd_method rd_path
           rd_summary rd_description rd_security rd_deprecated rd_responseExamples].
    rewrite Harr. unfold parameters_of.
    now destruct (cell_parameters (heap_routes h route)). }
  split; [exact Hmods|]. now rewrite Hmods.
Qed.

(* ------------------------------------------------------------------ *)
(** *** Converting twice *)

(** Two rounds of visits push the entries twice. *)
Lemma visits_twice (routes : list ref) (h : Heap Joi) (route : ref) :
  distinct_on h routes -> In route routes ->
  let entries :=
    (sideParameters terms_keys extract
       (rd_validators (cell_route (heap_routes h route))) "pathParameters"
     ++ sideParameters terms_keys extract
          (rd_validators (cell_route (heap_routes h route)))
          "queryStringParameters")%list in
  exists array,
    cell_parameters
      (heap_routes (fold_left (visitRoute terms_keys extract) routes
                      (fold_left (visitRoute terms_keys extract) routes h)) route) =
      Some array
    /\ heap_arrays (fold_left (visitRoute terms_keys extract) routes
                     (fold_left (visitRoute terms_keys extract) routes h)) array =
       (parameters_of h route ++ entries ++ entries)%list.
Proof.
  intros Hd Hin. cbv zeta.
  pose proof (visits_keep_distinct routes routes h Hd (incl_refl _)) as Hd1.
  destruct (visits_distinct _ h route Hd Hin) as [array1 [Hcell1 Harr1]].
  destruct (visits_distinct _ _ route Hd1 Hin) as [array [Hcell Harr]].
  exists array. split; [exact Hcell|]. rewrite Harr.
  unfold parameters_of at 1. rewrite Hcell1, Harr1.
  rewrite visits_cell_route. now rewrite <- !app_assoc.
Qed.

(** X17.  Converting a second time the module list that an earlier
    conversion wrote into pushes the side-channel entries again: when the
    route definitions are distinct objects with distinct [parameters]
    arrays, each ends with what it held at first followed by its entries
    twice.  The returned document is the one a single conversion of the
    original list returns. *)
Theorem convertInPlace_again
    (h : Heap Joi) (allModuleRoutes : list ModuleObject)
    (docSkeleton docSkeleton' : DocSkeleton) (routeSkeleton routeSkeleton' : RouteSkeleton) :
  distinct_objects h allModuleRoutes ->
  let first :=
    convertInPlace terms_keys extract joi2json h allModuleRoutes docSkeleton
      routeSkeleton in
  let second :=
    convertInPlace terms_keys extract joi2json (fst first) allModuleRoutes docSkeleton'
      routeSkeleton' in
  snd second =
    snd (convertInPlace terms_keys extract joi2json h allModuleRoutes docSkeleton'
           routeSkeleton')
  /\ (forall route validators,
        In route (visited allModuleRoutes) ->
        rd_validators (cell_route (heap_routes h route)) = Some validators ->
        let entries :=
          (path_entries terms_keys extract (assoc_get validators "pathParameters")
           ++ path_entries terms_keys extract
                (assoc_get validators "queryStringParameters"))%list in
        exists array,
          cell_parameters (heap_routes (fst second) route) = Some array
          /\ heap_arrays (fst second) array =
             (parameters_of h route ++ entries ++ entries)%list)
  /\ (forall route,
        In route (visited allModuleRoutes) ->
        rd_validators (cell_route (heap_routes h route)) = None ->
        exists array,
          cell_parameters (heap_routes (fst second) route) = Some array
          /\ heap_arrays (fst second) array = parameters_of h route).
Proof.
  intros Hd. cbv zeta. unfold convertInPlace. cbn [fst snd].
  rewrite !introspectInPlace_visits.
  split; [|split].
  - transitivity (buildAll joi2json (assignDoc DOC_ROOT_TEMPLATE docSkeleton')
                    (assignRoute ROUTE_DEF_TEMPLATE routeSkeleton')
                    (map (readModule h) allModuleRoutes));
      [|symmetry]; apply buildAll_read; intros route; now rewrite !visits_cell_route.
  - intros route validators Hin Hv.
    destruct (visits_twice _ h route Hd Hin) as [array [Hcell Harr]].
    exists array. split; [exact Hcell|].
    now rewrite Harr, Hv, !sideParameters_path_entries.
  - intros route Hin Hv.
    destruct (visits_twice _ h route Hd Hin) as [array [Hcell Harr]].
    exists array. split; [exact Hcell|].
    rewrite Harr, Hv. cbn [sideParameters validator_at app]. now rewrite !app_nil_r.
Qed.

End ConversionProperties.

(* ================================================================== *)
(** ** The theorems at concrete routes

    Validators are written as the schema they convert to
    ([literal_joi2json]). *)


(** C4, refuted as stated.  The body has an array field without [items]:
    the detector throws on it, so a body validator is present and yet no
    request body is attached.  The same happens for a body that reaches
    its schema through two references. *)
Lemma array_without_items_body_throws :
  validator_at (Some [("body", tags_body_schema)]) "body" = Some tags_body_schema
  /\ containsBinaryField tags_body_schema (VObj default_store) = Throw TypeError
  /\ addRequestBodyParams literal_joi2json (VObj default_store) ROUTE_DEF_TEMPLATE
       (Some [("body", tags_body_schema)]) = Throw TypeError
  /\ addRequestBodyParams literal_joi2json two_hop_store ROUTE_DEF_TEMPLATE
       (Some [("body", schema_ref "Body")]) = Throw TypeError.
Proof. repeat split. Qed.

(** A file-upload body, a plain body, and no body. *)
Lemma addRequestBodyParams_spec_witness :
  addRequestBodyParams literal_joi2json (VObj default_store) ROUTE_DEF_TEMPLATE
    (Some [("body", files_body_schema)]) =
  Ok (set_requestBody ROUTE_DEF_TEMPLATE
        (VObj [("content",
                VObj [("multipart/form-data", VObj [("schema", files_body_schema)])])]),
      VObj default_store)
  /\ addRequestBodyParams literal_joi2json (VObj default_store) ROUTE_DEF_TEMPLATE
       (Some [("body", page_schema)]) =
     Ok (set_requestBody ROUTE_DEF_TEMPLATE
           (VObj [("content",
                   VObj [("application/json", VObj [("schema", page_schema)])])]),
         VObj default_store)
  /\ addRequestBodyParams literal_joi2json (VObj default_store) ROUTE_DEF_TEMPLATE None =
     Ok (ROUTE_DEF_TEMPLATE, VObj default_store).
Proof.
  split; [|split].
  - exact (proj2 (addRequestBodyParams_spec value literal_joi2json (VObj default_store)
                    ROUTE_DEF_TEMPLATE (Some [("body", files_body_schema)]))
             files_body_schema files_body_schema eq_refl eq_refl).
  - exact (proj2 (addRequestBodyParams_spec value literal_joi2json (VObj default_store)
                    ROUTE_DEF_TEMPLATE (Some [("body", page_schema)]))
             page_schema page_schema eq_refl eq_refl).
  - exact (proj1 (addRequestBodyParams_spec value literal_joi2json (VObj default_store)
                    ROUTE_DEF_TEMPLATE None) eq_refl).
Defined.


(** Two modules under [/users] with different descriptions. *)
Lemma tags_registered_once_witness :
  exists doc',
    buildAll literal_joi2json DOC_ROOT_TEMPLATE ROUTE_DEF_TEMPLATE
      [users_module "First"; users_module "Second"] = Ok doc'
    /\ doc_tags doc' = [VObj [("name", VStr "users"); ("description", VStr "First")]]
    /\ (count_tag "users" (doc_tags doc') <= 1)%nat.
Proof.
  eexists. split; [reflexivity|]. split; [reflexivity|].
  exact (proj1 (proj2 (tags_registered_once value literal_joi2json
                         [users_module "First"; users_module "Second"]
                         DOC_ROOT_TEMPLATE _ ROUTE_DEF_TEMPLATE eq_refl))
           eq_refl "users").
Defined.

(** The route definitions of [example_heap] have no [parameters] yet:
    any list without repetition holds distinct objects. *)
Lemma example_heap_distinct (routes : list ref) :
  NoDup routes -> distinct_objects example_heap [users_module_object routes].
Proof.
  intros Hnodup. unfold distinct_objects, visited.
  cbn [map List.concat mo_routes users_module_object].
  rewrite app_nil_r. split; [exact Hnodup|]. split.
  - intros route route' array _ _ H. now destruct route.
  - intros route array _ H. now destruct route.
Qed.

(** Two route definitions in one module; the first carries a
    [queryStringParameters] validator with the key [page], and ends with
    the entry of [page], labelled ["path"]. *)
Lemma convertInPlace_side_channel_witness :
  let after :=
    convertInPlace literal_terms_keys literal_extract literal_joi2json example_heap
      [users_module_object [0; 1]%nat] no_doc_skeleton no_route_skeleton in
  distinct_objects example_heap [users_module_object [0; 1]%nat]
  /\ assoc_get [("queryStringParameters", page_schema); ("body", files_body_schema)]
       "queryStringParameters" = Some page_schema
  /\ exists array,
       cell_parameters (heap_routes (fst after) 0%nat) = Some array
       /\ heap_arrays (fst after) array = [page_entry].
Proof.
  cbv zeta.
  assert (Hd : distinct_objects example_heap [users_module_object [0; 1]%nat]).
  { apply example_heap_distinct. repeat constructor; cbn; intuition discriminate. }
  split; [exact Hd|]. split; [reflexivity|].
  destruct (proj1 (convertInPlace_side_channel value literal_terms_keys literal_extract
                     literal_joi2json example_heap [users_module_object [0; 1]%nat]
                     no_doc_skeleton no_route_skeleton Hd)
              0%nat [("queryStringParameters", page_schema); ("body", files_body_schema)]
              (or_introl eq_refl) eq_refl)
    as [array [Hcell Harr]].
  exists array. split; [exact Hcell|]. exact Harr.
Defined.

(** Without distinct objects the entries multiply: a route definition
    listed twice is visited twice, and a [parameters] array held by two
    route definitions receives the entries of both (here the second route
    definition, which has no validators, ends with the entry of the
    first). *)
Example shared_route_definition :
  parameters_of
    (introspectInPlace literal_terms_keys literal_extract example_heap
       [users_module_object [0; 0]%nat]) 0%nat =
  [page_entry; page_entry].
Proof. reflexivity. Qed.

Example shared_parameters_array :
  parameters_of
    (introspectInPlace literal_terms_keys literal_extract shared_array_heap
       [users_module_object [0; 1]%nat]) 1%nat =
  [page_entry].
Proof. reflexivity. Qed.

(** [convert] on one route: the side channel labels the query-string key
    ["path"], while the document lists it with [in] = ["query"] after the
    path parameter, and the upload body is multipart. *)
Example convert_users_api :
  let outcome :=
    convert literal_terms_keys literal_extract literal_joi2json
      [users_api] no_doc_skeleton no_route_skeleton in
  map (fun m => map (@rd_parameters value) (rm_routes m)) (fst outcome) =
    [[Some [{| sp_in := "path"; sp_name := "page";
               sp_schema := VObj [("type", VStr "integer")];
               sp_required := false |}]]]
  /\ exists doc route,
       snd outcome = Ok doc
       /\ doc_tags doc = [VObj [("name", VStr "users"); ("description", VStr "users")]]
       /\ doc_paths doc = [("/users/{id}", [("get", route)])]
       /\ map (fun p => (get_prop p "name", get_prop p "in")) (r_parameters route) =
          [(Ok (VStr "id"), Ok (VStr "path")); (Ok (VStr "page"), Ok (VStr "query"))]
       /\ option_map (fun b => get_prop b "content") (r_requestBody route) =
          Some (Ok (VObj [("multipart/form-data", VObj [("schema", files_body_schema)])]))
       /\ map fst (r_responses route) = ["200"; "500"].
Proof.
  cbv zeta.
  remember (convert literal_terms_keys literal_extract literal_joi2json
              [users_api] no_doc_skeleton no_route_skeleton) as outcome eqn:E.
  vm_compute in E. subst outcome. cbn [fst snd].
  split; [reflexivity|].
  do 2 eexists. split; [reflexivity|]. repeat split.
Qed.

(* ================================================================== *)
(** * Further properties of the source *)

(** ** The shape of a projected parameter (index.js 4-31) *)

















(* ================================================================== *)
(** ** PathTemplater: splitting and joining (index.js 149-160) *)

Lemma split_on_cons (sep : ascii) (s : string) :
  exists seg segs, split_on sep s = seg :: segs.
Proof.
  induction s as [|c tl [seg [segs IH]]]; cbn [split_on]; [eauto|].
  destruct (Ascii.eqb c sep); [eauto|]. rewrite IH. eauto.
Qed.

(** Joining what was split gives the string back. *)
Lemma concat_split_on (sep : ascii) (s : string) :
  String.concat (String sep "") (split_on sep s) = s.
Proof.
  induction s as [|c tl IH]; cbn [split_on]; [reflexivity|].
  destruct (split_on_cons sep tl) as [seg [segs E]]. rewrite E in *.
  destruct (Ascii.eqb c sep) eqn:Ec.
  - apply Ascii.eqb_eq in Ec. subst c.
    change (String.concat (String sep "") ("" :: seg :: segs))
      with (String sep (String.concat (String sep "") (seg :: segs))).
    now rewrite IH.
  - destruct segs as [|x segs].
    + cbn [String.concat] in *. now rewrite IH.
    + change (String c (seg ++ String sep (String.concat (String sep "") (x :: segs)))
              = String c tl).
      change (seg ++ String sep (String.concat (String sep "") (x :: segs)) = tl) in IH.
      now rewrite IH.
Qed.

Lemma split_on_no_sep (sep : ascii) (s : string) :
  Forall (fun seg => ~ In sep (list_ascii_of_string seg)) (split_on sep s).
Proof.
  induction s as [|c tl IH]; cbn [split_on].
  - constructor; [intros [] | constructor].
  - destruct (Ascii.eqb c sep) eqn:Ec.
    + constructor; [intros [] | exact IH].
    + destruct (split_on sep tl) as [|seg segs]; [constructor; [|constructor]|].
      * cbn. intros [->|[]]. now rewrite Ascii.eqb_refl in Ec.
      * inversion IH as [|? ? Hseg Hsegs]; subst. constructor; [|exact Hsegs].
        cbn. intros [->|Hin]; [now rewrite Ascii.eqb_refl in Ec | now apply Hseg].
Qed.

Lemma split_on_app_sep (sep : ascii) (a b : string) :
  ~ In sep (list_ascii_of_string a) ->
  split_on sep (a ++ String sep b) = a :: split_on sep b.
Proof.
  induction a as [|c a IH]; cbn [append split_on list_ascii_of_string]; intros Hno.
  - now rewrite Ascii.eqb_refl.
  - destruct (Ascii.eqb c sep) eqn:Ec.
    + apply Ascii.eqb_eq in Ec. subst. exfalso. apply Hno. now left.
    + rewrite IH; [reflexivity|]. intros Hin. apply Hno. now right.
Qed.

Lemma split_on_without_sep (sep : ascii) (a : string) :
  ~ In sep (list_ascii_of_string a) -> split_on sep a = [a].
Proof.
  induction a as [|c a IH]; cbn [split_on list_ascii_of_string]; intros Hno;
    [reflexivity|].
  destruct (Ascii.eqb c sep) eqn:Ec.
  - apply Ascii.eqb_eq in Ec. subst. exfalso. apply Hno. now left.
  - rewrite IH; [reflexivity|]. intros Hin. apply Hno. now right.
Qed.

(** Splitting what was joined gives the segments back, when no segment
    holds the separator. *)
Lemma split_on_concat (sep : ascii) (seg : string) (segs : list string) :
  Forall (fun x => ~ In sep (list_ascii_of_string x)) (seg :: segs) ->
  split_on sep (String.concat (String sep "") (seg :: segs)) = seg :: segs.
Proof.
  revert seg. induction segs as [|x tl IH]; intros seg Hall;
    inversion Hall as [|? ? Hseg Htl]; subst.
  - cbn [String.concat]. now apply split_on_without_sep.
  - change (String.concat (String sep "") (seg :: x :: tl))
      with (seg ++ String sep (String.concat (String sep "") (x :: tl))).
    rewrite split_on_app_sep by exact Hseg. now rewrite IH.
Qed.

Lemma list_ascii_of_string_app (a b : string) :
  list_ascii_of_string (a ++ b) =
  (list_ascii_of_string a ++ list_ascii_of_string b)%list.
Proof. induction a as [|c a IH]; cbn; [reflexivity | now rewrite IH]. Qed.

Lemma templated_no_slash (segment : string) :
  ~ In "/"%char (list_ascii_of_string segment) ->
  ~ In "/"%char (list_ascii_of_string (templated segment)).
Proof.
  unfold templated. destruct (is_variable_segment segment); [|auto].
  intros Hno Hin. cbn [append list_ascii_of_string] in Hin.
  destruct Hin as [Hin|Hin]; [discriminate|].
  rewrite list_ascii_of_string_app in Hin. apply in_app_or in Hin.
  destruct Hin as [Hin|[Hin|[]]]; [|discriminate].
  apply Hno. destruct segment; [destruct Hin | now right].
Qed.

Lemma templated_not_variable (segment : string) :
  is_variable_segment (templated segment) = false.
Proof.
  unfold templated. destruct (is_variable_segment segment) eqn:E; [reflexivity | exact E].
Qed.

Lemma pathTemplate_segments (basePath path : string) :
  pathTemplate basePath path =
  (String.concat "/" (map templated (split_on "/"%char (basePath ++ path))),
   map bare_name (filter is_variable_segment (split_on "/"%char (basePath ++ path)))).
Proof. unfold pathTemplate. now rewrite mapComponents_spec. Qed.

Lemma map_templated_unmarked (segs : list string) :
  filter is_variable_segment segs = [] -> map templated segs = segs.
Proof.
  induction segs as [|seg tl IH]; cbn [filter map]; [reflexivity|].
  unfold templated at 1. destruct (is_variable_segment seg); [discriminate|].
  intros H. now rewrite IH.
Qed.

(** X5.  [paramNames] is empty exactly when no segment of
    [basePath + path] begins with [":"], and then the template is the
    concatenation itself, character for character. *)
Theorem pathTemplate_without_variables (basePath path : string) :
  (snd (pathTemplate basePath path) = [] <->
   filter is_variable_segment (split_on "/"%char (basePath ++ path)) = [])
  /\ (snd (pathTemplate basePath path) = [] ->
      fst (pathTemplate basePath path) = basePath ++ path).
Proof.
  rewrite pathTemplate_segments. cbn [fst snd].
  assert (Hiff : map bare_name
                   (filter is_variable_segment (split_on "/"%char (basePath ++ path))) = []
                 <-> filter is_variable_segment
                       (split_on "/"%char (basePath ++ path)) = []).
  { split; intros H.
    - now destruct (filter is_variable_segment (split_on "/"%char (basePath ++ path))).
    - now rewrite H. }
  split; [exact Hiff|].
  intros H. apply Hiff in H. rewrite (map_templated_unmarked _ H).
  apply concat_split_on.
Qed.

(** A path without variables. *)
Lemma pathTemplate_without_variables_witness :
  snd (pathTemplate "/users" "/me/posts") = []
  /\ fst (pathTemplate "/users" "/me/posts") = "/users/me/posts".
Proof.
  split; [reflexivity|].
  exact (proj2 (pathTemplate_without_variables "/users" "/me/posts") eq_refl).
Defined.

(** X6.  The template has one segment per segment of [basePath + path],
    none of which begins with [":"]; templating it again changes nothing
    and finds no names. *)
Theorem pathTemplate_idempotent (basePath path : string) :
  let template := fst (pathTemplate basePath path) in
  split_on "/"%char template = map templated (split_on "/"%char (basePath ++ path))
  /\ filter is_variable_segment (split_on "/"%char template) = []
  /\ pathTemplate "" template = (template, []).
Proof.
  cbv zeta. rewrite (pathTemplate_segments basePath path). cbn [fst].
  set (segs := split_on "/"%char (basePath ++ path)).
  assert (Hsplit : split_on "/"%char (String.concat "/" (map templated segs)) =
                   map templated segs).
  { pose proof (split_on_no_sep "/"%char (basePath ++ path)) as Hno. fold segs in Hno.
    destruct (split_on_cons "/"%char (basePath ++ path)) as [seg [tl E]].
    fold segs in E. rewrite E in *. cbn [map].
    apply split_on_concat. change (Forall (fun x => ~ In "/"%char (list_ascii_of_string x))
                                     (map templated (seg :: tl))).
    apply Forall_forall. intros x Hx. apply in_map_iff in Hx.
    destruct Hx as [y [<- Hy]]. apply templated_no_slash.
    rewrite Forall_forall in Hno. now apply Hno. }
  assert (Hnone : filter is_variable_segment (map templated segs) = []).
  { clear Hsplit. induction segs as [|seg tl IH]; cbn [map filter]; [reflexivity|].
    now rewrite templated_not_variable. }
  split; [exact Hsplit|]. split; [now rewrite Hsplit|].
  rewrite pathTemplate_segments. cbn [append]. rewrite Hsplit, Hnone.
  rewrite (map_templated_unmarked _ Hnone). reflexivity.
Qed.

(* ================================================================== *)
(** ** The derived module id (index.js 194) *)

Lemma replace_all_char_removes (c d : ascii) (s : string) :
  c <> d -> ~ In c (list_ascii_of_string (replace_all_char c d s)).
Proof.
  intros Hne. induction s as [|x tl IH]; cbn [replace_all_char list_ascii_of_string].
  - intros [].
  - intros [Heq|Hin]; [|now apply IH].
    destruct (Ascii.eqb x c) eqn:E; [congruence|].
    subst x. now rewrite Ascii.eqb_refl in E.
Qed.

Lemma replace_all_char_length (c d : ascii) (s : string) :
  String.length (replace_all_char c d s) = String.length s.
Proof. induction s as [|x tl IH]; cbn; [reflexivity | now rewrite IH]. Qed.

Lemma replace_all_char_absent (c d : ascii) (s : string) :
  ~ In c (list_ascii_of_string s) -> replace_all_char c d s = s.
Proof.
  induction s as [|x tl IH]; cbn [replace_all_char list_ascii_of_string]; intros Hno;
    [reflexivity|].
  destruct (Ascii.eqb x c) eqn:E.
  - apply Ascii.eqb_eq in E. subst. exfalso. apply Hno. now left.
  - rewrite IH; [reflexivity|]. intros Hin. apply Hno. now right.
Qed.

(** X7.  The module id derived from a base path holds no ["/"].  For a
    base path that is not empty it is one character shorter than the base
    path: the first character is dropped whatever it is, and the rest is
    kept as it is when it has no ["/"].  The id of the empty base path is
    empty. *)
Theorem moduleIdOf_no_slash (basePath : string) :
  ~ In "/"%char (list_ascii_of_string (moduleIdOf basePath))
  /\ (basePath <> "" ->
      S (String.length (moduleIdOf basePath)) = String.length basePath)
  /\ (basePath = "" -> moduleIdOf basePath = "")
  /\ (forall c rest,
        basePath = String c rest ->
        ~ In "/"%char (list_ascii_of_string rest) ->
        moduleIdOf basePath = rest).
Proof.
  unfold moduleIdOf, substring_from_1. split; [|split; [|split]].
  - apply replace_all_char_removes. discriminate.
  - intros Hne. rewrite replace_all_char_length.
    destruct basePath; [congruence | reflexivity].
  - intros ->. reflexivity.
  - intros c rest -> Hno. cbn [drop_chars]. now apply replace_all_char_absent.
Qed.

(* ================================================================== *)
(** ** BinaryDetector on well-formed schemas (index.js 60-74) *)

Lemma isBinaryFieldDefn_scannable (f : value) :
  scannable_field f = true -> isBinaryFieldDefn f = Ok (binary_field f).
Proof.
  destruct f as [| | | | | |fs]; try discriminate.
  unfold scannable_field, binary_field, isBinaryFieldDefn.
  cbn [get_prop bind]. fold (obj_field fs "type").
  destruct (is_str (obj_field fs "type") "array").
  - cbn [get_prop bind]. fold (obj_field fs "items").
    destruct (obj_field fs "items") as [| | | | | |items]; try discriminate.
    reflexivity.
  - reflexivity.
Qed.

Lemma some_m_pure {A : Type} (p : A -> result bool) (q : A -> bool) (l : list A) :
  (forall x, In x l -> p x = Ok (q x)) -> some_m p l = Ok (existsb q l).
Proof.
  induction l as [|x tl IH]; intros Hall; cbn [some_m existsb]; [reflexivity|].
  rewrite (Hall x (or_introl eq_refl)). cbn [bind].
  destruct (q x); [reflexivity|]. apply IH. intros y Hy. apply Hall. now right.
Qed.

Lemma existsb_map_comp {A B : Type} (q : B -> bool) (f : A -> B) (l : list A) :
  existsb q (map f l) = existsb (fun x => q (f x)) l.
Proof. induction l as [|x tl IH]; cbn; [reflexivity | now rewrite IH]. Qed.

(** X8.  On a schema whose [properties] is an object of scannable fields
    (objects; [items] an object when [type] is ["array"]) the scan of the
    top-level properties never throws and answers true exactly when some
    field has [format] ["binary"], or is an array whose [items] has. *)
Theorem anyTopLevelBinary_scannable (schema : value) (props : assoc value) :
  get_prop schema "properties" = Ok (VObj props) ->
  forallb (fun kv => scannable_field (snd kv)) props = true ->
  anyTopLevelBinary schema = Ok (existsb (fun kv => binary_field (snd kv)) props).
Proof.
  intros Hprops Hall. unfold anyTopLevelBinary. rewrite Hprops. cbn [bind].
  unfold collection_values, collection_entries.
  assert (Hobj : forallb (fun kv : string * value => is_object (snd kv)) props = true).
  { rewrite forallb_forall in *. intros kv Hin. specialize (Hall kv Hin).
    destruct (snd kv); now try discriminate. }
  rewrite (all_objects_not_array_like props Hobj), map_map. cbn [snd].
  rewrite (some_m_pure isBinaryFieldDefn binary_field).
  - now rewrite existsb_map_comp.
  - intros f Hf. apply in_map_iff in Hf. destruct Hf as [kv [<- Hin]].
    apply isBinaryFieldDefn_scannable.
    rewrite forallb_forall in Hall. now apply Hall.
Qed.

(** An upload form, and a form without binary field. *)
Lemma anyTopLevelBinary_scannable_witness :
  anyTopLevelBinary files_body_schema = Ok true
  /\ anyTopLevelBinary page_schema = Ok false.
Proof.
  split.
  - exact (anyTopLevelBinary_scannable files_body_schema
             [("files", VObj [("type", VStr "array");
                              ("items", VObj [("type", VStr "string");
                                              ("format", VStr "binary")])])]
             eq_refl eq_refl).
  - exact (anyTopLevelBinary_scannable page_schema
             [("page", VObj [("type", VStr "integer")])] eq_refl eq_refl).
Defined.

Lemma replace_first_prefix (pat s : string) :
  replace_first pat "" (pat ++ s) = s.
Proof.
  assert (Hpre : String.prefix pat (pat ++ s) = true).
  { induction pat as [|c pat IH]; cbn; [now destruct s|].
    destruct (ascii_dec c c); [exact IH | congruence]. }
  assert (Hdrop : drop_chars (String.length pat) (pat ++ s) = s).
  { induction pat as [|c pat IH]; cbn; [now destruct s | apply IH].
    clear - pat. induction pat as [|c pat IH]; cbn; [now destruct s|].
    destruct (ascii_dec c c); [exact IH | congruence]. }
  destruct (pat ++ s) eqn:E; cbn [replace_first]; rewrite Hpre; cbn [append];
    exact Hdrop.
Qed.

(** X9.  One hop is followed.  When the body schema has no binary
    top-level property and its root [$ref] is
    [#/components/schemas/<name>], the detector answers what the scan of
    the stored schema [name] answers, provided that schema has no root
    [$ref] of its own; and a binary top-level property of the body schema
    is reported without looking at the store at all. *)
Theorem containsBinaryField_one_hop
    (schema target : value) (store : assoc value) (name : string) (ref' : value) :
  anyTopLevelBinary schema = Ok false ->
  get_prop schema "$ref" = Ok (VStr (SCHEMA_REF_PREFIX ++ name)) ->
  assoc_get store name = Some target ->
  get_prop target "$ref" = Ok ref' ->
  truthy ref' = false ->
  containsBinaryField schema (VObj store) = anyTopLevelBinary target
  /\ (forall other sharedSchemas,
        anyTopLevelBinary other = Ok true ->
        containsBinaryField other sharedSchemas = Ok true).
Proof.
  intros Hscan Href Hget Href' Hfalsy. split.
  - rewrite containsBinaryField_unfold, Hscan. cbn [bind]. rewrite Href.
    cbn [bind truthy js_replace]. unfold SCHEMA_REF_PREFIX at 1. cbn [append String.eqb].
    cbn [negb]. rewrite replace_first_prefix. cbn [get_prop]. rewrite Hget. cbn [bind].
    destruct (anyTopLevelBinary target) as [[|]|e]; cbn [bind]; try reflexivity.
    rewrite Href'. cbn [bind]. now rewrite Hfalsy.
  - intros other sharedSchemas Hother.
    rewrite containsBinaryField_unfold, Hother. reflexivity.
Qed.

(** A body that refers to the stored [Upload] schema. *)
Lemma containsBinaryField_one_hop_witness :
  containsBinaryField (schema_ref "Upload") two_hop_store = Ok true.
Proof.
  exact (proj1 (containsBinaryField_one_hop (schema_ref "Upload") upload_schema
                  [("Body", schema_ref "Upload"); ("Upload", upload_schema)]
                  "Upload" VUndefined eq_refl eq_refl eq_refl eq_refl eq_refl)).
Defined.

(* ================================================================== *)
(** ** Routes and documents, for any validator library *)


Lemma map_m_throw {A B : Type} (f : A -> result B) (l : list A) (x : A) :
  In x l -> f x = Throw TypeError -> map_m f l = Throw TypeError.
Proof.
  intros Hin Hx. induction l as [|y tl IH]; [destruct Hin|].
  cbn [map_m]. destruct Hin as [->|Hin].
  - now rewrite Hx.
  - destruct (f y) as [b|[]]; cbn [bind]; [|reflexivity]. now rewrite IH.
Qed.

Lemma fold_m_invariant {A B : Type} (f : A -> B -> result A) (P : A -> Prop)
    (l : list B) (a a' : A) :
  (forall x b y, f x b = Ok y -> P x -> P y) ->
  fold_m f l a = Ok a' -> P a -> P a'.
Proof.
  intros Hstep. revert a. induction l as [|b tl IH]; intros a H Ha; cbn [fold_m] in H.
  - now injection H as <-.
  - destruct (f a b) as [a1|] eqn:E; [|discriminate]. cbn [bind] in H.
    apply (IH _ H). eapply Hstep; eassumption.
Qed.


(** Projecting a name that is not a property of the schema throws: the
    projector reads [example] of the missing field schema. *)
Lemma convertJsonSchemaToParamObj_missing_field
    (jsonSchema : value) (props : assoc value) (key : string) :
  get_prop jsonSchema "properties" = Ok (VObj props) ->
  assoc_get props key = None ->
  _convertJsonSchemaToParamObj jsonSchema (VStr key) = Throw TypeError.
Proof.
  intros Hprops Hnone. unfold _convertJsonSchemaToParamObj.
  rewrite Hprops. cbn [bind js_to_string get_prop]. rewrite Hnone. cbn [bind].
  destruct (get_prop jsonSchema "required") as [required|[]]; cbn [bind]; [|reflexivity].
  destruct (if truthy required then js_includes required (VStr key) else Ok false)
    as [[|]|[]]; reflexivity.
Qed.

Section RouteProperties.

Variable Joi : Type.
Variable terms_keys : Joi -> list (string * value).
Variable extract : Joi -> string -> Joi.
Variable joi2json : Joi -> value -> value * value.







(** What [buildSwaggerRequest] returns, when it returns. *)
Lemma buildSwaggerRequest_inv (docEntity doc' : DocEntity) (routeEntity : RouteObject)
    (tag basePath : string) (routeDef : RouteDefinition Joi) :
  buildSwaggerRequest joi2json docEntity routeEntity tag basePath routeDef = Ok doc' ->
  exists filled,
    fillSwaggerReq joi2json (store_of docEntity) (newSwaggerReq routeEntity tag routeDef)
      (snd (pathTemplate basePath (rd_path routeDef))) routeDef = Ok filled
    /\ doc' =
       {| doc_tags := doc_tags docEntity;
          doc_paths :=
            assoc_set (doc_paths docEntity) (fst (pathTemplate basePath (rd_path routeDef)))
              (assoc_set
                 (or_default
                    (assoc_get (doc_paths docEntity)
                       (fst (pathTemplate basePath (rd_path routeDef)))) [])
                 (rd_method routeDef) (fst filled));
          doc_components := with_store (doc_components docEntity) (snd filled);
          doc_extra := doc_extra docEntity |}.
Proof.
  unfold buildSwaggerRequest.
  destruct (pathTemplate basePath (rd_path routeDef)) as [pathString pathParams].
  cbn [fst snd].
  destruct (fillSwaggerReq joi2json (store_of docEntity)
              (newSwaggerReq routeEntity tag routeDef) pathParams routeDef)
    as [filled|]; cbn [bind]; [|discriminate].
  intros [= <-]. exists filled. auto.
Qed.

Lemma route_at_set (docEntity : DocEntity) (tags : list value)
    (components extra : assoc value) (path method p m : string) (route : RouteObject) :
  route_at
    {| doc_tags := tags;
       doc_paths :=
         assoc_set (doc_paths docEntity) path
           (assoc_set (or_default (assoc_get (doc_paths docEntity) path) []) method route);
       doc_components := components;
       doc_extra := extra |} p m =
  if ((p =? path) && (m =? method))%string%bool then Some route
  else route_at docEntity p m.
Proof.
  unfold route_at. cbn [doc_paths].
  string_cases p path.
  - rewrite assoc_get_set_same. cbn [andb].
    string_cases m method.
    + now rewrite assoc_get_set_same.
    + rewrite assoc_get_set_other by assumption.
      now destruct (assoc_get (doc_paths docEntity) path).
  - now rewrite assoc_get_set_other by assumption.
Qed.

(** X11.  A route is documented under the template of its path and its
    method, and nowhere else: the entry of any other path or method is
    what it was.  Routes with the same template and different methods
    thus share the path entry; the same path and method again replaces
    the earlier route object.  The template is taken not to be the name of
    a member every object inherits and the method not to be ["__proto__"]:
    [paths[template]] would read the inherited member, and an assignment
    to ["__proto__"] stores no entry. *)
Theorem buildSwaggerRequest_slot (docEntity doc' : DocEntity) (routeEntity : RouteObject)
    (tag basePath : string) (routeDef : RouteDefinition Joi) :
  inherited_member (fst (pathTemplate basePath (rd_path routeDef))) = false ->
  rd_method routeDef <> "__proto__" ->
  buildSwaggerRequest joi2json docEntity routeEntity tag basePath routeDef = Ok doc' ->
  exists route,
    forall p m,
      route_at doc' p m =
      if ((p =? fst (pathTemplate basePath (rd_path routeDef)))
          && (m =? rd_method routeDef))%string%bool
      then Some route
      else route_at docEntity p m.
Proof.
  intros _ _ H. destruct (buildSwaggerRequest_inv _ _ _ _ _ _ H) as [filled [_ ->]].
  exists (fst filled). intros p m. apply route_at_set.
Qed.



Lemma with_store_other (components : assoc value) (sharedSchemas' : value) (k : string) :
  k <> "schemas" ->
  assoc_get (with_store components sharedSchemas') k = assoc_get components k.
Proof.
  intros Hk. unfold with_store.
  destruct (obj_field components "schemas"); try reflexivity.
  now apply assoc_get_set_other.
Qed.



(** X14.  A path validator must declare every variable of the path: if
    its converted schema lacks a property for one of them, and the
    variable is not named like a member every object inherits
    ([constructor], [toString], ...: [properties[name]] would find that
    member), installing the path parameters throws a TypeError, and so
    does the filling of the route; there is no fallback to the default
    parameter. *)
Theorem addRequestPathParams_undeclared_variable
    (sharedSchemas : value) (route : RouteObject) (pathParams : list string)
    (validators : assoc Joi) (validator : Joi) (fs props : assoc value)
    (param : string) :
  assoc_get validators "path" = Some validator ->
  fst (joi2json_call joi2json validator sharedSchemas) = VObj fs ->
  obj_field fs "properties" = VObj props ->
  In param pathParams ->
  assoc_get props param = None ->
  inherited_member param = false ->
  addRequestPathParams joi2json sharedSchemas route pathParams (Some validators) =
    Throw TypeError
  /\ (forall routeDef,
        rd_validators routeDef = Some validators ->
        fillSwaggerReq joi2json sharedSchemas route pathParams routeDef = Throw TypeError).
Proof.
  intros Hv Hconv Hprops Hin Hnone _.
  assert (Hthrow : addRequestPathParams joi2json sharedSchemas route pathParams
                     (Some validators) = Throw TypeError).
  { unfold addRequestPathParams, validator_at. rewrite Hv.
    destruct (joi2json_call joi2json validator sharedSchemas) as [schema store'].
    cbn [fst] in Hconv. subst schema. cbn [delete_prop bind truthy].
    match goal with
    | |- context [map_m ?f pathParams] =>
        rewrite (map_m_throw f pathParams param Hin); [reflexivity|]
    end.
    rewrite (convertJsonSchemaToParamObj_missing_field _ props param);
      [reflexivity | | exact Hnone].
    cbn [get_prop]. fold (obj_field (assoc_remove fs "schemas") "properties").
    rewrite obj_field_remove_other by discriminate. now rewrite Hprops. }
  split; [exact Hthrow|].
  intros routeDef Hvalidators. unfold fillSwaggerReq.
  rewrite Hvalidators, Hthrow. reflexivity.
Qed.

(** X15.  Processing modules never touches the document's properties
    other than [tags], [paths] and [components], changes [components] at
    [schemas] only, and never removes a documented route. *)
Theorem buildAll_frame (modules : list (RouteModule Joi)) (docEntity doc' : DocEntity)
    (routeEntity : RouteObject) :
  buildAll joi2json docEntity routeEntity modules = Ok doc' ->
  doc_extra doc' = doc_extra docEntity
  /\ (forall k, k <> "schemas" ->
        assoc_get (doc_components doc') k = assoc_get (doc_components docEntity) k)
  /\ (forall p m, route_at docEntity p m <> None -> route_at doc' p m <> None).
Proof.
  set (P := fun d : DocEntity =>
              doc_extra d = doc_extra docEntity
              /\ (forall k, k <> "schemas" ->
                    assoc_get (doc_components d) k = assoc_get (doc_components docEntity) k)
              /\ (forall p m, route_at docEntity p m <> None -> route_at d p m <> None)).
  assert (Hroute : forall tag basePath x routeDef y,
             buildSwaggerRequest joi2json x routeEntity tag basePath routeDef = Ok y ->
             P x -> P y).
  { intros tag basePath x routeDef y Hrun [Hextra [Hcomp Hpaths]].
    destruct (buildSwaggerRequest_inv _ _ _ _ _ _ Hrun) as [filled [_ ->]].
    split; [exact Hextra|]. split.
    - intros k Hk. cbn [doc_components]. rewrite with_store_other by exact Hk.
      now apply Hcomp.
    - intros p m Hpm. rewrite route_at_set.
      destruct ((p =? _) && (m =? _))%string%bool; [discriminate | now apply Hpaths]. }
  intros H. unfold buildAll in H.
  apply (fold_m_invariant _ P) in H; [exact H | | now repeat split].
  intros x m y Hm Hx. unfold buildModuleRoutes in Hm.
  apply (fold_m_invariant _ P) in Hm; [exact Hm | intros; eapply Hroute; eassumption |].
  exact Hx.
Qed.

Lemma registerTag_appends (tags : list value) (modules : list (RouteModule Joi)) :
  exists added,
    fold_left (@registerTag Joi) modules tags = (tags ++ added)%list
    /\ (List.length added <= List.length modules)%nat
    /\ Forall (fun t => exists m, In m modules /\ t = tagObjectOf m) added.
Proof.
  revert tags. induction modules as [|m tl IH]; intros tags; cbn [fold_left].
  - exists []. rewrite app_nil_r. repeat split; [cbn; lia | constructor].
  - assert (Hreg : registerTag tags m = tags
                   \/ registerTag tags m = (tags ++ [tagObjectOf m])%list).
    { unfold registerTag. destruct (find (tag_named (tagOf m)) tags); auto. }
    destruct (IH (registerTag tags m)) as [added [Heq [Hlen Hall]]].
    assert (Hall' : Forall (fun t => exists m', In m' (m :: tl) /\ t = tagObjectOf m')
                      added).
    { eapply Forall_impl; [|exact Hall]. intros t [m' [Hin ->]]. exists m'.
      split; [now right | reflexivity]. }
    rewrite Heq. destruct Hreg as [->| ->].
    + exists added. repeat split; [cbn; lia | exact Hall'].
    + exists (tagObjectOf m :: added). rewrite <- app_assoc.
      repeat split; [cbn; lia|].
      constructor; [|exact Hall']. exists m. split; [now left | reflexivity].
Qed.

(** X16.  Tags are only appended: the tag list of the returned document
    begins with the list that was handed in, in the same order, followed
    by at most one tag object per module, each built from a module of the
    list. *)
Theorem tags_only_appended (modules : list (RouteModule Joi)) (docEntity doc' : DocEntity)
    (routeEntity : RouteObject) :
  buildAll joi2json docEntity routeEntity modules = Ok doc' ->
  exists added,
    doc_tags doc' = (doc_tags docEntity ++ added)%list
    /\ (List.length added <= List.length modules)%nat
    /\ Forall (fun t => exists m, In m modules /\ t = tagObjectOf m) added.
Proof.
  intros H. rewrite (buildAll_tags Joi joi2json _ _ _ _ H).
  apply registerTag_appends.
Qed.

End RouteProperties.

(* ================================================================== *)
(** ** The further properties at concrete routes *)

(** [/users] gives [users]; [/users/admin], of twelve characters, gives an
    id of eleven without ["/"]. *)
Lemma moduleIdOf_no_slash_witness :
  moduleIdOf "/users" = "users"
  /\ ~ In "/"%char (list_ascii_of_string (moduleIdOf "/users/admin"))
  /\ S (String.length (moduleIdOf "/users/admin")) = String.length "/users/admin"
  /\ moduleIdOf "" = "".
Proof.
  split; [|split; [|split]].
  - apply (proj2 (proj2 (proj2 (moduleIdOf_no_slash "/users")))
             "/"%char "users" eq_refl).
    cbn. intuition discriminate.
  - exact (proj1 (moduleIdOf_no_slash "/users/admin")).
  - apply (proj1 (proj2 (moduleIdOf_no_slash "/users/admin"))). discriminate.
  - exact (proj1 (proj2 (proj2 (moduleIdOf_no_slash ""))) eq_refl).
Defined.


(** [DELETE /users/:id/posts/:post] in the built-in document. *)
Lemma buildSwaggerRequest_slot_witness :
  exists doc',
    buildSwaggerRequest literal_joi2json DOC_ROOT_TEMPLATE ROUTE_DEF_TEMPLATE
      "users" "/users" bare_route = Ok doc'
    /\ exists route,
         route_at doc' "/users/{id}/posts/{post}" "delete" = Some route
         /\ route_at doc' "/users/{id}/posts/{post}" "get" = None
         /\ route_at doc' "/users" "delete" = None.
Proof.
  destruct (buildSwaggerRequest literal_joi2json DOC_ROOT_TEMPLATE ROUTE_DEF_TEMPLATE
              "users" "/users" bare_route) as [doc'|e] eqn:E;
    [|exfalso; vm_compute in E; discriminate].
  exists doc'. split; [reflexivity|].
  destruct (buildSwaggerRequest_slot value literal_joi2json DOC_ROOT_TEMPLATE doc'
              ROUTE_DEF_TEMPLATE "users" "/users" bare_route
              eq_refl ltac:(discriminate) E) as [route Hslot].
  exists route. repeat split; rewrite Hslot; reflexivity.
Defined.



(** The path validator knows [id], the path has [id] and [post]. *)
Lemma addRequestPathParams_undeclared_variable_witness :
  addRequestPathParams literal_joi2json (VObj default_store) ROUTE_DEF_TEMPLATE
    ["id"; "post"] (Some [("path", id_path_schema)]) = Throw TypeError.
Proof.
  exact (proj1 (addRequestPathParams_undeclared_variable value literal_joi2json
                  (VObj default_store) ROUTE_DEF_TEMPLATE ["id"; "post"]
                  [("path", id_path_schema)] id_path_schema
                  [("type", VStr "object");
                   ("properties", VObj [("id", VObj [("type", VStr "string")])])]
                  [("id", VObj [("type", VStr "string")])] "post"
                  eq_refl eq_refl eq_refl (or_intror (or_introl eq_refl)) eq_refl
                  eq_refl)).
Defined.

(** One module with one route, from the built-in document. *)
Lemma buildAll_frame_witness :
  exists doc',
    buildAll literal_joi2json DOC_ROOT_TEMPLATE ROUTE_DEF_TEMPLATE [users_api] = Ok doc'
    /\ doc_extra doc' = doc_extra DOC_ROOT_TEMPLATE.
Proof.
  destruct (buildAll literal_joi2json DOC_ROOT_TEMPLATE ROUTE_DEF_TEMPLATE [users_api])
    as [doc'|e] eqn:E; [|exfalso; vm_compute in E; discriminate].
  exists doc'. split; [reflexivity|].
  exact (proj1 (buildAll_frame value literal_joi2json [users_api] DOC_ROOT_TEMPLATE doc'
                  ROUTE_DEF_TEMPLATE E)).
Defined.

Lemma tags_only_appended_witness :
  exists doc' added,
    buildAll literal_joi2json DOC_ROOT_TEMPLATE ROUTE_DEF_TEMPLATE
      [users_module "First"; users_module "Second"] = Ok doc'
    /\ doc_tags doc' = (doc_tags DOC_ROOT_TEMPLATE ++ added)%list
    /\ (List.length added <= 2)%nat.
Proof.
  destruct (buildAll literal_joi2json DOC_ROOT_TEMPLATE ROUTE_DEF_TEMPLATE
              [users_module "First"; users_module "Second"])
    as [doc'|e] eqn:E; [|exfalso; vm_compute in E; discriminate].
  destruct (tags_only_appended value literal_joi2json
              [users_module "First"; users_module "Second"] DOC_ROOT_TEMPLATE doc'
              ROUTE_DEF_TEMPLATE E) as [added [Heq [Hlen _]]].
  exists doc', added. split; [reflexivity|]. split; [exact Heq | exact Hlen].
Defined.

(* ================================================================== *)
(** ** A document skeleton without a schema store *)

Lemma with_store_no_object (components : assoc value) (sharedSchemas' : value) :
  is_object (obj_field components "schemas") = false ->
  with_store components sharedSchemas' = components.
Proof.
  unfold with_store. now destruct (obj_field components "schemas").
Qed.

(** X18.  The skeleton's [components] replaces the built-in one as a
    whole.  When it has no [schemas] object, the returned document's
    [components] is exactly the skeleton's: neither the built-in [Error]
    schema nor anything the converter met is recorded. *)
Theorem skeleton_components_without_schemas
    (Joi : Type) (terms_keys : Joi -> list (string * value))
    (extract : Joi -> string -> Joi) (joi2json : Joi -> value -> value * value)
    (allModuleRoutes : list (RouteModule Joi)) (docSkeleton : DocSkeleton)
    (routeSkeleton : RouteSkeleton) (components : assoc value) (doc : DocEntity) :
  ds_components docSkeleton = Some components ->
  is_object (obj_field components "schemas") = false ->
  snd (convert terms_keys extract joi2json allModuleRoutes docSkeleton routeSkeleton) =
    Ok doc ->
  doc_components doc = components.
Proof.
  intros Hskel Hnone. unfold convert. cbn [snd]. intros H.
  set (P := fun d : DocEntity => doc_components d = components).
  unfold buildAll in H. apply (fold_m_invariant _ P) in H; [exact H | |].
  - intros x m y Hm Hx. unfold buildModuleRoutes in Hm.
    apply (fold_m_invariant _ P) in Hm; [exact Hm | | exact Hx].
    intros x' routeDef y' Hrun Hx'.
    destruct (buildSwaggerRequest_inv Joi joi2json _ _ _ _ _ _ Hrun) as [filled [_ ->]].
    unfold P in *. cbn [doc_components]. rewrite Hx'.
    now apply with_store_no_object.
  - unfold P, assignDoc. cbn [doc_components]. now rewrite Hskel.
Qed.

(** A skeleton that brings security schemes only. *)
Lemma skeleton_components_without_schemas_witness :
  exists doc,
    snd (convert literal_terms_keys literal_extract literal_joi2json [users_api]
           security_only_skeleton no_route_skeleton) = Ok doc
    /\ doc_components doc = [("securitySchemes", VObj [])].
Proof.
  destruct (snd (convert literal_terms_keys literal_extract literal_joi2json [users_api]
                   security_only_skeleton no_route_skeleton)) as [doc|e] eqn:E;
    [|exfalso; vm_compute in E; discriminate].
  exists doc. split; [reflexivity|].
  exact (skeleton_components_without_schemas value literal_terms_keys literal_extract
           literal_joi2json [users_api] security_only_skeleton no_route_skeleton
           [("securitySchemes", VObj [])] doc eq_refl eq_refl E).
Defined.

(** The two route definitions of [example_heap], converted twice: the
    entry of [page] is there twice. *)
Lemma convertInPlace_again_witness :
  let first :=
    convertInPlace literal_terms_keys literal_extract literal_joi2json example_heap
      [users_module_object [0; 1]%nat] no_doc_skeleton no_route_skeleton in
  let second :=
    convertInPlace literal_terms_keys literal_extract literal_joi2json (fst first)
      [users_module_object [0; 1]%nat] no_doc_skeleton no_route_skeleton in
  exists array,
    cell_parameters (heap_routes (fst second) 0%nat) = Some array
    /\ heap_arrays (fst second) array = [page_entry; page_entry].
Proof.
  cbv zeta.
  assert (Hd : distinct_objects example_heap [users_module_object [0; 1]%nat]).
  { apply example_heap_distinct. repeat constructor; cbn; intuition discriminate. }
  destruct (proj1 (proj2 (convertInPlace_again value literal_terms_keys literal_extract
                            literal_joi2json example_heap
                            [users_module_object [0; 1]%nat]
                            no_doc_skeleton no_doc_skeleton
                            no_route_skeleton no_route_skeleton Hd))
              0%nat [("queryStringParameters", page_schema); ("body", files_body_schema)]
              (or_introl eq_refl) eq_refl)
    as [array [Hcell Harr]].
  exists array. split; [exact Hcell|]. exact Harr.
Defined.
